(** * AUTOEXEC.BAT generation (src/shell/autoexec.cpp)

    A shallow embedding of the code that composes the boot script of the
    emulated machine, and the properties of its specification.

    Strings are lists of 8-bit characters.  The two [std::map] globals are
    ordered association lists, kept in ascending key order the way the C++
    container iterates.  The globals of the translation unit are gathered in
    one record that every operation takes and returns. *)

From Stdlib Require Import Ascii String.
From Stdlib Require Import List Bool Arith NArith Lia.
From Stdlib Require Import Sorting.Sorted Sorting.Permutation.
Import ListNotations.

Set Implicit Arguments.

(** ** Text *)

Definition text := list ascii.

(** A literal of the source, as a list of characters. *)
Definition str (s : string) : text := list_ascii_of_string s.

Definition text_eq_dec : forall a b : text, {a = b} + {a <> b} :=
  list_eq_dec ascii_dec.

Definition char_lf : ascii := ascii_of_nat 10.
Definition char_cr : ascii := ascii_of_nat 13.

(** [empty ()] of a string or a container. *)
Definition empty (A : Type) (s : list A) : bool :=
  match s with [] => true | _ => false end.

(** Modelled from the spec: [upcase], [lowcase] (string_utils.h, not under
    src/) apply the C locale's [toupper] / [tolower] to every character:
    only the 26 ASCII letters change. *)
Definition toupper (c : ascii) : ascii :=
  let n := nat_of_ascii c in
  if (97 <=? n) && (n <=? 122) then ascii_of_nat (n - 32) else c.

Definition tolower (c : ascii) : ascii :=
  let n := nat_of_ascii c in
  if (65 <=? n) && (n <=? 90) then ascii_of_nat (n + 32) else c.

Definition upcase (s : text) : text := map toupper s.
Definition lowcase (s : text) : text := map tolower s.

(** Modelled from the spec: [isspace] of the C locale: space and the five
    control characters HT, LF, VT, FF, CR. *)
Definition isspace (c : ascii) : bool :=
  let n := nat_of_ascii c in
  (n =? 32) || ((9 <=? n) && (n <=? 13)).

(** Modelled from the spec: [is_printable_ascii] (string_utils.h, not under
    src/): the characters from space to tilde. *)
Definition is_printable_ascii (c : ascii) : bool :=
  let n := nat_of_ascii c in
  (32 <=? n) && (n <=? 126).

(** Modelled from the spec: [trim] (string_utils.h, not under src/) removes
    the leading and the trailing white space of a line: spaces, carriage
    returns, tabs, form feeds and line feeds. *)
Definition is_trim_char (c : ascii) : bool :=
  let n := nat_of_ascii c in
  (n =? 32) || (n =? 13) || (n =? 9) || (n =? 12) || (n =? 10).

Fixpoint trim_left (s : text) : text :=
  match s with
  | c :: r => if is_trim_char c then trim_left r else s
  | [] => []
  end.

Definition trim (s : text) : text := rev (trim_left (rev (trim_left s))).

(** [std::string::substr (pos, len)]; every use in this file has
    [pos <= length]. *)
Definition substr (pos len : nat) (s : text) : text :=
  firstn len (skipn pos s).

(** Modelled from the spec: [ends_with] (string_utils.h, not under src/). *)
Definition ends_with (s suffix : text) : bool :=
  (length suffix <=? length s) &&
  if text_eq_dec (skipn (length s - length suffix) s) suffix
  then true else false.

(** Comparison of [std::string]: lexicographic on the characters taken as
    unsigned bytes, a proper prefix first. *)
Fixpoint text_compare (a b : text) : comparison :=
  match a, b with
  | [], [] => Eq
  | [], _ :: _ => Lt
  | _ :: _, [] => Gt
  | x :: a', y :: b' =>
      match Ascii.compare x y with
      | Eq => text_compare a' b'
      | o => o
      end
  end.

(** ** Ordered maps

    [std::map]: the entries in ascending key order, at most one per key.
    Look-up, [operator[]] and [erase] walk the entries up to the place of the
    key. *)

Section StdMap.
Variables K V : Type.
Variable cmp : K -> K -> comparison.

Definition std_map := list (K * V).

Fixpoint map_find (k : K) (m : std_map) : option V :=
  match m with
  | [] => None
  | (k', v') :: r =>
      match cmp k k' with
      | Lt => None
      | Eq => Some v'
      | Gt => map_find k r
      end
  end.

(** [m[k]] followed by a change [f] of the referenced value; an absent
    key is first inserted with the default value [d]. *)
Fixpoint map_at (k : K) (d : V) (f : V -> V) (m : std_map) : std_map :=
  match m with
  | [] => [(k, f d)]
  | (k', v') :: r =>
      match cmp k k' with
      | Lt => (k, f d) :: m
      | Eq => (k', f v') :: r
      | Gt => (k', v') :: map_at k d f r
      end
  end.

Fixpoint map_erase (k : K) (m : std_map) : std_map :=
  match m with
  | [] => []
  | (k', v') :: r =>
      match cmp k k' with
      | Lt => m
      | Eq => r
      | Gt => (k', v') :: map_erase k r
      end
  end.

Definition keys (m : std_map) : list K := map fst m.

(** The container's invariant: keys strictly ascending. *)
Definition map_ok (m : std_map) : Prop :=
  StronglySorted (fun a b => cmp a b = Lt) (keys m).
End StdMap.

(** ** The data of the translation unit *)

Inductive Location :=
| GeneratedBeforeAutoexec
| ConfigFileAutoexec
| GeneratedAfterAutoexec.

(** The enumerators' values, which order the keys of [autoexec_lines]. *)
Definition Location_value (l : Location) : nat :=
  match l with
  | GeneratedBeforeAutoexec => 0
  | ConfigFileAutoexec => 1
  | GeneratedAfterAutoexec => 2
  end.

Definition Location_compare (a b : Location) : comparison :=
  Nat.compare (Location_value a) (Location_value b).

(** What the virtual file system is asked to do. *)
Inductive VfileCall :=
| VFILE_Register (name : text) (data : text)
| VFILE_Update (name : text) (data : text).

Record State := mkState {
  (* Generated AUTOEXEC.BAT, in UTF-8 format *)
  autoexec_bat_utf8 : text;
  (* Whether AUTOEXEC.BAT is already registered on the Z: drive *)
  is_vfile_registered : bool;
  (* Code page used to generate Z:\AUTOEXEC.BAT *)
  vfile_code_page : N;
  (* If true, put ECHO OFF before the content of [autoexec] section *)
  autoexec_has_echo_off : bool;
  (* Environment variables to be set in AUTOEXEC.BAT *)
  autoexec_variables : std_map text text;
  (* Lines to be placed in the generated AUTOEXEC.BAT, by location *)
  autoexec_lines : std_map Location (list text);
  (* The collaborators, as the calls they received, latest first:
     the virtual file system, the UTF-8 engine, and the running shell
     ([None] while [first_shell] is null). *)
  vfile_calls : list VfileCall;
  utf8_to_dos_calls : list (text * N);
  first_shell : option (list (text * text))
}.

Definition initial_state : State :=
  mkState [] false 0%N false [] [] [] [] None.

Definition autoexec_file_name : text := str "AUTOEXEC.BAT".

(** ** AUTOEXEC.BAT generation code *)

Section Generation.
(** The localised message look-up of the emulator. *)
Variable MSG_Get : text -> text.

(* DOS line ending is CR+LF *)
Definition push_new_line (out : text) : text :=
  (out ++ [char_cr]) ++ [char_lf].

Definition push_string (out : text) (line : text) : text :=
  if empty line then push_new_line out
  else push_new_line (fold_left (fun o character => o ++ [character]) line out).

Definition comment : text := str ":: ".
Definition comment_generated : text :=
  comment ++ MSG_Get (str "AUTOEXEC_BAT_AUTOGENERATED").
Definition comment_config_section : text :=
  comment ++ MSG_Get (str "AUTOEXEC_BAT_CONFIG_SECTION").

(** The locals of [create_autoexec_bat_utf8] that its loop updates. *)
Record Printer := mkPrinter {
  out : text;
  (* If currently printed lines are autogenerated *)
  prints_generated : bool;
  (* If currently printed lines are from [autoexec] section *)
  prints_config_section : bool
}.

(** One round of the loop over [autoexec_lines]. *)
Definition print_section (p : Printer) (entry : Location * list text)
  : Printer :=
  let (source, list_lines) := entry in
  match list_lines with
  | [] => p
  | _ :: _ =>
      let p1 :=
        match source with
        | GeneratedBeforeAutoexec | GeneratedAfterAutoexec =>
            if negb (prints_generated p) then
              let o := if negb (empty (out p))
                       then push_new_line (out p) else out p in
              let o := push_string o comment_generated in
              let o := push_new_line o in
              mkPrinter o true false
            else p
        | ConfigFileAutoexec =>
            if negb (prints_config_section p) then
              let o := if negb (empty (out p))
                       then push_new_line (out p) else out p in
              let o := push_string o comment_config_section in
              let o := push_new_line o in
              mkPrinter o false true
            else p
        end in
      mkPrinter (fold_left push_string list_lines (out p1))
                (prints_generated p1) (prints_config_section p1)
  end.

(** Put 'ECHO OFF' and 'SET variable=value' if needed. *)
Definition print_preamble (echo_off : bool) (variables : std_map text text)
  : Printer :=
  let p := mkPrinter [] false false in
  let p :=
    if echo_off || negb (empty variables)
    then mkPrinter (push_string (out p) comment_generated) true
                   (prints_config_section p)
    else p in
  let o := out p in
  let o :=
    if echo_off
    then push_string (push_new_line o) (str "@ECHO OFF") else o in
  let o :=
    if negb (empty variables)
    then fold_left
           (fun o nv => push_string o
                          (((str "@SET " ++ fst nv) ++ str "=") ++ snd nv))
           variables (push_new_line o)
    else o in
  let o := if prints_generated p then push_new_line o else o in
  mkPrinter o (prints_generated p) (prints_config_section p).

Definition create_autoexec_bat_utf8 (st : State) : text :=
  out (fold_left print_section (autoexec_lines st)
         (print_preamble (autoexec_has_echo_off st)
                         (autoexec_variables st))).
End Generation.

Section Publication.
(** The UTF-8 engine's conversion to a DOS code page. *)
Variable utf8_to_dos : text -> N -> text.

Definition create_autoexec_bat_dos (input_utf8 : text) (code_page : N)
           (st : State) : State :=
  (* Convert UTF-8 AUTOEXEC.BAT to DOS code page *)
  let autoexec_bat_dos := utf8_to_dos input_utf8 code_page in
  (* Convert the result to a binary format *)
  let autoexec_bat_bin := autoexec_bat_dos in
  (* Register/refresh Z:\AUTOEXEC.BAT file *)
  let call :=
    if is_vfile_registered st
    then VFILE_Update autoexec_file_name autoexec_bat_bin
    else VFILE_Register autoexec_file_name autoexec_bat_bin in
  mkState (autoexec_bat_utf8 st)
          true
          (* Store current code page for caching purposes *)
          code_page
          (autoexec_has_echo_off st)
          (autoexec_variables st)
          (autoexec_lines st)
          (call :: vfile_calls st)
          ((input_utf8, code_page) :: utf8_to_dos_calls st)
          (first_shell st).

(** [shutdown_requested] and [get_utf8_code_page ()] are read from the
    emulator. *)
Definition AUTOEXEC_NotifyNewCodePage
           (shutdown_requested : bool) (get_utf8_code_page : N)
           (st : State) : State :=
  if shutdown_requested || negb (is_vfile_registered st) then st
  else
    let code_page := get_utf8_code_page in
    if (code_page =? vfile_code_page st)%N then st
    else create_autoexec_bat_dos (autoexec_bat_utf8 st) code_page st.

Variable MSG_Get : text -> text.

Definition AUTOEXEC_RegisterFile (get_utf8_code_page : N) (st : State)
  : State :=
  let utf8 := create_autoexec_bat_utf8 MSG_Get st in
  let st1 :=
    mkState utf8 (is_vfile_registered st) (vfile_code_page st)
            (autoexec_has_echo_off st) (autoexec_variables st)
            (autoexec_lines st) (vfile_calls st) (utf8_to_dos_calls st)
            (first_shell st) in
  create_autoexec_bat_dos (autoexec_bat_utf8 st1) get_utf8_code_page st1.
End Publication.

(** The bytes of Z:\AUTOEXEC.BAT: those of the latest call to the virtual
    file system. *)
Definition published (st : State) : option text :=
  match vfile_calls st with
  | VFILE_Register _ data :: _ | VFILE_Update _ data :: _ => Some data
  | [] => None
  end.

(** ** AutoExecModule *)

Definition with_lines (lines : std_map Location (list text)) (st : State)
  : State :=
  mkState (autoexec_bat_utf8 st) (is_vfile_registered st) (vfile_code_page st)
          (autoexec_has_echo_off st) (autoexec_variables st) lines
          (vfile_calls st) (utf8_to_dos_calls st) (first_shell st).

Definition with_echo_off (echo_off : bool) (st : State) : State :=
  mkState (autoexec_bat_utf8 st) (is_vfile_registered st) (vfile_code_page st)
          echo_off (autoexec_variables st) (autoexec_lines st)
          (vfile_calls st) (utf8_to_dos_calls st) (first_shell st).

Definition with_variables (variables : std_map text text)
           (shell : option (list (text * text))) (st : State) : State :=
  mkState (autoexec_bat_utf8 st) (is_vfile_registered st) (vfile_code_page st)
          (autoexec_has_echo_off st) variables (autoexec_lines st)
          (vfile_calls st) (utf8_to_dos_calls st) shell.

(** [autoexec_lines[location].push_back (line)] *)
Definition push_back_at (location : Location) (line : text) (st : State)
  : State :=
  with_lines (map_at Location_compare location [] (fun l => l ++ [line])
                     (autoexec_lines st)) st.

Definition AddCommandBefore (line : text) : State -> State :=
  push_back_at GeneratedBeforeAutoexec line.

Definition AddCommandAfter (line : text) : State -> State :=
  push_back_at GeneratedAfterAutoexec line.

Definition AddAutoExecLine (line : text) : State -> State :=
  push_back_at ConfigFileAutoexec line.

Definition check_echo_off (line : text) : bool :=
  if empty line then false
  else
    let tmp := match line with
               | c :: _ => if ascii_dec c "@"%char
                           then substr 1 (length line) line else line
               | [] => line
               end in
    if length tmp <? 8 then false
    else
      let tmp := lowcase tmp in
      if (if text_eq_dec (substr 0 4 tmp) (str "echo") then false else true)
         || negb (ends_with tmp (str "off"))
      then false
      else
        let tmp := substr 4 (length tmp - 7) tmp in
        forallb isspace tmp.

(** The lines that successive [std::getline] calls extract: each runs to
    the next line feed, which it consumes; at the end of the input a call
    that extracts nothing fails and ends the loop.  [line] holds the
    characters extracted so far. *)
Fixpoint getlines (line : text) (input : text) : list text :=
  match input with
  | [] => if empty line then [] else [line]
  | c :: rest =>
      if ascii_dec c char_lf then line :: getlines [] rest
      else getlines (line ++ [c]) rest
  end.

(** The body of the loop of [ProcessConfigFile], on the state and
    [is_first_line]. *)
Definition process_line (acc : State * bool) (line : text) : State * bool :=
  let (st, is_first_line) := acc in
  let line := trim line in
  (* If the first line is 'echo off' command, skip it and replace
     with auto-generated one *)
  if is_first_line && check_echo_off line
  then (with_echo_off true st, false)
  else (AddAutoExecLine line st, false).

Definition ProcessConfigFile (section_data : text) (st : State) : State :=
  if empty section_data then st
  else fst (fold_left process_line (getlines [] section_data) (st, true)).

(** ** Variables *)

(** [c_str ()] as the callee reads it: the characters before the first
    NUL. *)
Fixpoint c_str (s : text) : text :=
  match s with
  | [] => []
  | c :: r => if ascii_dec c zero then [] else c :: c_str r
  end.

(** How a call ends: [E_Exit] aborts the emulator with a message. *)
Inductive Outcome :=
| E_Exit (message : text)
| Returns (st : State).

(** [SetEnv] on the running shell, if there is one. *)
Definition SetEnv (entry new_string : text)
           (shell : option (list (text * text)))
  : option (list (text * text)) :=
  match shell with
  | Some calls => Some ((entry, new_string) :: calls)
  | None => None
  end.

(** [C_DEBUG] is the build's configuration macro. *)
Definition AUTOEXEC_SetVariable (C_DEBUG : bool) (name value : text)
           (st : State) : Outcome :=
  if C_DEBUG && negb (forallb is_printable_ascii name)
  then E_Exit (str "AUTOEXEC: Variable name is not a printable ASCII")
  else if C_DEBUG && negb (forallb is_printable_ascii value)
  then E_Exit (str "AUTOEXEC: Variable value is not a printable ASCII")
  else
    let name_upcase := upcase name in
    (* If shell is already running, refresh variable content *)
    let shell := SetEnv (c_str name_upcase) (c_str value) (first_shell st) in
    (* Update our internal list of variables to set in AUTOEXEC.BAT *)
    let variables :=
      if empty value
      then map_erase text_compare name_upcase (autoexec_variables st)
      else map_at text_compare name_upcase [] (fun _ => value)
                  (autoexec_variables st) in
    Returns (with_variables variables shell st).

(** ** The localised messages registered by [AddMessages] *)

Definition default_messages (key : text) : text :=
  if text_eq_dec key (str "AUTOEXEC_BAT_AUTOGENERATED")
  then str "autogenerated"
  else if text_eq_dec key (str "AUTOEXEC_BAT_CONFIG_SECTION")
  then str "from [autoexec] section"
  else [].

(** ** The layout of the script, line by line

    The generated text read as a sequence of lines, each ended by CR+LF.
    [create_autoexec_bat_utf8] is shown below to emit exactly these
    lines. *)

Definition crlf : text := [char_cr; char_lf].

Definition emit (lines : list text) : text :=
  concat (map (fun line => line ++ crlf) lines).

Definition set_line (nv : text * text) : text :=
  str "@SET " ++ fst nv ++ str "=" ++ snd nv.

Section Layout.
Variable MSG_Get : text -> text.

Definition preamble_lines (echo_off : bool) (variables : std_map text text)
  : list text :=
  if echo_off || negb (empty variables) then
    [comment_generated MSG_Get]
      ++ (if echo_off then [[]; str "@ECHO OFF"] else [])
      ++ (if empty variables then [] else [] :: map set_line variables)
      ++ [[]]
  else [].

(** A banner: a blank line unless nothing was emitted yet, the comment, a
    blank line. *)
Definition banner_lines (nothing_yet : bool) (banner : text) : list text :=
  (if nothing_yet then [] else [[]]) ++ [banner; []].

(** The lines of the sections of [m], given whether nothing was emitted
    yet and which context (generated, config section) is being printed. *)
Fixpoint body_lines (nothing_yet generated config_section : bool)
         (m : std_map Location (list text)) : list text :=
  match m with
  | [] => []
  | (_, []) :: r => body_lines nothing_yet generated config_section r
  | (ConfigFileAutoexec, ls) :: r =>
      (if config_section then []
       else banner_lines nothing_yet (comment_config_section MSG_Get))
        ++ ls
        ++ body_lines false (config_section && generated) true r
  | (_, ls) :: r =>
      (if generated then []
       else banner_lines nothing_yet (comment_generated MSG_Get))
        ++ ls
        ++ body_lines false true (generated && config_section) r
  end.
End Layout.

(** The lines stored for a location: none when the key is absent. *)
Definition lines_at (location : Location) (m : std_map Location (list text))
  : list text :=
  match map_find Location_compare location m with
  | Some ls => ls
  | None => []
  end.

Definition buffer (location : Location) (st : State) : list text :=
  lines_at location (autoexec_lines st).

(** A call of one of the three insertion operations. *)
Inductive Insertion :=
| Before (line : text)
| User (line : text)
| After (line : text).

Definition insert (st : State) (c : Insertion) : State :=
  match c with
  | Before line => AddCommandBefore line st
  | User line => AddAutoExecLine line st
  | After line => AddCommandAfter line st
  end.

Definition location_of (c : Insertion) : Location :=
  match c with
  | Before _ => GeneratedBeforeAutoexec
  | User _ => ConfigFileAutoexec
  | After _ => GeneratedAfterAutoexec
  end.

Definition line_of (c : Insertion) : text :=
  match c with Before l | User l | After l => l end.

Definition Location_eqb (a b : Location) : bool :=
  Location_value a =? Location_value b.

(** The lines that a sequence of calls inserts at a location, in call
    order. *)
Definition inserted (location : Location) (calls : list Insertion)
  : list text :=
  map line_of (filter (fun c => Location_eqb (location_of c) location) calls).

(** Running a second call when the first returned. *)
Definition and_then (o : Outcome) (f : State -> Outcome) : Outcome :=
  match o with
  | E_Exit m => E_Exit m
  | Returns st => f st
  end.

(** A sequence of [AUTOEXEC_SetVariable] calls, as (name, value) pairs. *)
Fixpoint set_variables (C_DEBUG : bool) (calls : list (text * text))
         (st : State) : Outcome :=
  match calls with
  | [] => Returns st
  | (name, value) :: rest =>
      and_then (AUTOEXEC_SetVariable C_DEBUG name value st)
               (set_variables C_DEBUG rest)
  end.

Definition text_lt (a b : text) : Prop := text_compare a b = Lt.

(** A stand-in for the UTF-8 engine, for the examples: code page 437 keeps
    the text, any other replaces the characters above 127. *)
Definition stub_utf8_to_dos (input : text) (code_page : N) : text :=
  if (code_page =? 437)%N then input
  else map (fun c => if nat_of_ascii c <? 128 then c else "?"%char) input.

(** A line feed, to write the input of the examples. *)
Definition nl : string := String char_lf EmptyString.

(** Every list of [autoexec_lines] is empty. *)
Definition all_buffers_empty (st : State) : Prop :=
  Forall (fun entry => snd entry = []) (autoexec_lines st).

(** The state a call returned with ([st] itself had it aborted). *)
Definition state_after (o : Outcome) (st : State) : State :=
  match o with
  | Returns st' => st'
  | E_Exit _ => st
  end.

(** The shape that [check_echo_off] looks for: an optional [@], the word
    "echo" in any letter case, one or more white-space characters, the word
    "off" in any letter case, and nothing else. *)
Definition echo_off_pattern (line : text) : Prop :=
  exists at_sign e ws o,
    line = at_sign ++ e ++ ws ++ o
    /\ (at_sign = [] \/ at_sign = str "@")
    /\ lowcase e = str "echo"
    /\ ws <> []
    /\ forallb isspace ws = true
    /\ lowcase o = str "off".

(** Adding each line, trimmed, to the lines of the [autoexec] section. *)
Definition add_lines (lines : list text) (st : State) : State :=
  fold_left (fun s line => AddAutoExecLine (trim line) s) lines st.

(** The test of [check_echo_off] once the [@] is removed. *)
Definition echo_off_test (tmp : text) : bool :=
  if length tmp <? 8 then false
  else
    let tmp := lowcase tmp in
    if (if text_eq_dec (substr 0 4 tmp) (str "echo") then false else true)
       || negb (ends_with tmp (str "off"))
    then false
    else forallb isspace (substr 4 (length tmp - 7) tmp).

(** Whether the build lets the call through: the release build always,
    the debug build when name and value are printable ASCII. *)
Definition accepted (C_DEBUG : bool) (name value : text) : bool :=
  negb C_DEBUG
  || (forallb is_printable_ascii name && forallb is_printable_ascii value).

Definition variable (name : text) (st : State) : option text :=
  map_find text_compare name (autoexec_variables st).

(** A state in which the shell runs and has received no call yet. *)
Definition shell_running (st : State) : State :=
  with_variables (autoexec_variables st) (Some []) st.

(** The update of [autoexec_variables] that [AUTOEXEC_SetVariable] makes
    for an upper-cased name. *)
Definition assign (name_upcase value : text) (m : std_map text text)
  : std_map text text :=
  if empty value
  then map_erase text_compare name_upcase m
  else map_at text_compare name_upcase [] (fun _ => value) m.

(** The names under which a sequence of calls stores. *)
Definition stored_names (calls : list (text * text)) : list text :=
  map (fun c => upcase (fst c)) calls.

Definition all_accepted (C_DEBUG : bool) (calls : list (text * text)) : Prop :=
  Forall (fun c => accepted C_DEBUG (fst c) (snd c) = true) calls.

(** ** The constructor of AutoExecModule

    What the constructor asks of the rest of the emulator is gathered in
    two records: [Host] holds the file system, the drive configuration
    parser and the platform; [Startup] holds the answers of the [dosbox]
    section and of the command line, in the order the constructor asks. *)

Record Host := mkHost {
  (* the path of a resource directory entry *)
  GetResourcePath : text -> text -> text;
  path_exists : text -> bool;
  (* drive letter, mount arguments and PATH value of a drive's .conf *)
  parse_drive_conf : text -> text -> text * text * text;
  simplify_path : text -> text;
  is_directory : text -> bool;
  (* [std_fs::current_path () / path] *)
  in_current_path : text -> text;
  (* whether [WIN32] is defined *)
  WIN32 : bool
}.

Record Startup := mkStartup {
  (* sec->Get_bool ("automount") *)
  automount : bool;
  (* cmdline->FindExist ("-securemode", true) *)
  securemode : bool;
  (* cmdline->FindExist ("-noautoexec", true) *)
  noautoexec : bool;
  (* sec->Get_string ("autoexec_section") *)
  autoexec_section : text;
  (* the values that cmdline->FindString ("-c", argument, true) yields *)
  c_arguments : list text;
  (* cmdline->FindExist ("-exit") *)
  exit_switch : bool;
  (* control->GetStartupVerbosity () == Verbosity::InstantLaunch *)
  instant_launch : bool;
  (* cmdline->HasExecutableName () *)
  has_executable_name : bool;
  (* what cmdline->FindCommand (1, ...), (2, ...), ... yield *)
  commands : list text;
  (* the data of the joined [autoexec] sections *)
  configuration_data : text;
  (* the data of control->GetOverwrittenAutoexecSection () *)
  overwritten_autoexec_data : text;
  (* get_utf8_code_page () when the file is registered *)
  utf8_code_page : N
}.

Definition quote : text := [ascii_of_nat 34].

(** Takes in a drive letter (eg: 'c') and attempts to mount the 'drives/c',
    extends system path if needed. *)
Definition AutoMountDrive (h : Host) (dir_letter : text) (st : State)
  : State :=
  (* Does drives/[x] exist? *)
  let drive_path := GetResourcePath h (str "drives") dir_letter in
  if negb (path_exists h drive_path) then st
  else
    (* Try parsing the [x].conf file *)
    let conf_path := drive_path ++ str ".conf" in
    let '(drive_letter, mount_args, path_val) :=
      parse_drive_conf h dir_letter conf_path in
    (* Install mount as an autoexec command *)
    let st :=
      AddCommandBefore
        (((((str "@Z:\MOUNT.COM " ++ drive_letter) ++ str " " ++ quote)
             ++ simplify_path h drive_path) ++ quote) ++ mount_args) st in
    (* Install path as an autoexec command *)
    if negb (length path_val =? 0)
    then AddCommandBefore (str "@SET PATH=" ++ path_val) st
    else st.

(** The letters 'a' to 'z' of the auto-mount loop. *)
Definition drive_letters : list ascii := map ascii_of_nat (seq 97 26).

(** Replace single with double quotes so that mount commands can contain
    spaces (WIN32 only). *)
Definition replace_quotes (h : Host) (argument : text) : text :=
  if WIN32 h
  then map (fun character =>
              if ascii_dec character "'"%char then ascii_of_nat 34
              else character) argument
  else argument.

Definition is_exit_call (argument : text) : bool :=
  (if text_eq_dec argument (str "exit") then true else false)
  || (if text_eq_dec argument ((quote ++ str "exit") ++ quote)
      then true else false).

(** The loop over the [-c] options; [exit_call_exists] is threaded
    through. *)
Fixpoint add_c_arguments (h : Host) (arguments : list text)
         (exit_call_exists : bool) (st : State) : State * bool :=
  match arguments with
  | [] => (st, exit_call_exists)
  | argument :: rest =>
      let argument := replace_quotes h argument in
      (* If the user's added an exit call, simply store that fact but
         don't insert it *)
      if is_exit_call argument
      then add_c_arguments h rest true st
      else add_c_arguments h rest exit_call_exists
                           (AddCommandBefore argument st)
  end.

Definition maybe_add_command_secure (secure after : bool) (st : State)
  : State :=
  let command := str "@Z:\CONFIG.COM -securemode" in
  if secure
  then if after then AddCommandAfter command st
       else AddCommandBefore command st
  else st.

Definition maybe_add_command_mount_d_cdrom (targets : text) (st : State)
  : State :=
  if empty targets then st
  else AddCommandBefore
         ((str "@Z:\IMGMOUNT.COM D " ++ targets) ++ str " -t iso") st.

Definition add_command_mount_c_directory (target : text) (st : State)
  : State :=
  AddCommandBefore (str "@C:")
                   (AddCommandBefore (str "@Z:\MOUNT.COM C " ++ target) st).

(** The loop over the positional arguments: the state, whether a directory
    or a command was found, and the CD images collected. *)
Fixpoint find_dir_or_command (h : Host) (secure : bool)
         (arguments : list text) (cdrom_images : text) (st : State)
  : State * bool * text :=
  match arguments with
  | [] => (st, false, cdrom_images)
  | argument :: rest =>
      (* Check if argument is a file/directory *)
      if is_directory h argument
         || is_directory h (in_current_path h argument)
      then
        let st := maybe_add_command_mount_d_cdrom cdrom_images st in
        let st := add_command_mount_c_directory
                    ((quote ++ argument) ++ quote) st in
        let st := maybe_add_command_secure secure false st in
        (st, true, cdrom_images)
      else
        let argument_ucase := upcase argument in
        (* Check if argument is a batch file *)
        if ends_with argument_ucase (str ".BAT") then
          let st := maybe_add_command_mount_d_cdrom cdrom_images st in
          let st := maybe_add_command_secure secure false st in
          (* BATch files are called else exit will not work *)
          let st := AddCommandBefore (str "CALL " ++ argument) st in
          (st, true, cdrom_images)
        (* Check if argument is a boot image file *)
        else if ends_with argument_ucase (str ".IMG")
                || ends_with argument_ucase (str ".IMA") then
          let st := maybe_add_command_mount_d_cdrom cdrom_images st in
          (* No secure mode here as boot is destructive and enabling
             securemode disables boot *)
          let st := AddCommandBefore
                      (((str "BOOT " ++ quote) ++ argument) ++ quote) st in
          (st, true, cdrom_images)
        (* Check if argument is a CD image *)
        else if ends_with argument_ucase (str ".ISO")
                || ends_with argument_ucase (str ".CUE") then
          let cdrom_images :=
            if negb (empty cdrom_images) then cdrom_images ++ str " "
            else cdrom_images in
          let cdrom_images := cdrom_images ++ (quote ++ argument) ++ quote in
          find_dir_or_command h secure rest cdrom_images st
        else
          (* Consider argument as a command *)
          let st := maybe_add_command_mount_d_cdrom cdrom_images st in
          let st := maybe_add_command_secure secure false st in
          let st := AddCommandBefore argument st in
          (st, true, cdrom_images)
  end.

(** The composer's part of the constructor: everything before the file is
    registered. *)
Definition compose_autoexec (h : Host) (s : Startup) (st : State) : State :=
  (* Auto-mount drives (except for DOSBox's Z:) prior to [autoexec] *)
  let st :=
    if automount s
    then fold_left (fun st letter => AutoMountDrive h [letter] st)
                   drive_letters st
    else st in
  let secure := securemode s in
  (* Are autoexec sections permitted? *)
  let autoexec_is_allowed := negb (noautoexec s) in
  (* Should autoexec sections be joined or overwritten? *)
  let should_join_autoexecs :=
    if text_eq_dec (autoexec_section s) (str "join") then true else false in
  let '(st, exit_call_exists) :=
    add_c_arguments h (c_arguments s) false st in
  let exit_arg_exists := exit_switch s in
  let using_instant_launch_with_executable :=
    instant_launch s && has_executable_name s in
  (* Should we add an 'exit' call to the end of autoexec.bat? *)
  let should_add_exit :=
    exit_call_exists || exit_arg_exists
    || using_instant_launch_with_executable in
  let '(st, found_dir_or_command, cdrom_images) :=
    find_dir_or_command h secure (commands s) [] st in
  (* Generate AUTOEXEC.BAT *)
  let st :=
    if autoexec_is_allowed then
      if should_join_autoexecs
      then ProcessConfigFile (configuration_data s) st
      else if found_dir_or_command then st
           else ProcessConfigFile (overwritten_autoexec_data s) st
    else st in
  let st :=
    if negb found_dir_or_command
    then maybe_add_command_secure
           secure true (maybe_add_command_mount_d_cdrom cdrom_images st)
    else st in
  if should_add_exit then AddCommandAfter (str "@EXIT") st else st.

Definition AutoExecModule (utf8_to_dos : text -> N -> text)
           (MSG_Get : text -> text) (h : Host) (s : Startup) (st : State)
  : State :=
  (* Register the AUTOEXEC.BAT file if not already done *)
  AUTOEXEC_RegisterFile utf8_to_dos MSG_Get (utf8_code_page s)
                        (compose_autoexec h s st).

(** ** Sequences of operations

    The entry points of the translation unit, to state what holds after any
    sequence of calls. *)

Inductive Operation :=
| CallInsert (c : Insertion)
| CallProcessConfigFile (section_data : text)
| CallSetVariable (name value : text)
| CallRegisterFile (code_page : N)
| CallNotifyNewCodePage (shutdown_requested : bool) (code_page : N)
| CallAutoExecModule (h : Host) (s : Startup).

Section Run.
Variable utf8_to_dos : text -> N -> text.
Variable MSG_Get : text -> text.
Variable C_DEBUG : bool.

Definition run (op : Operation) (st : State) : Outcome :=
  match op with
  | CallInsert c => Returns (insert st c)
  | CallProcessConfigFile data => Returns (ProcessConfigFile data st)
  | CallSetVariable name value => AUTOEXEC_SetVariable C_DEBUG name value st
  | CallRegisterFile code_page =>
      Returns (AUTOEXEC_RegisterFile utf8_to_dos MSG_Get code_page st)
  | CallNotifyNewCodePage shutdown code_page =>
      Returns (AUTOEXEC_NotifyNewCodePage utf8_to_dos shutdown code_page st)
  | CallAutoExecModule h s =>
      Returns (AutoExecModule utf8_to_dos MSG_Get h s st)
  end.

Fixpoint run_all (ops : list Operation) (st : State) : Outcome :=
  match ops with
  | [] => Returns st
  | op :: rest => and_then (run op st) (run_all rest)
  end.
End Run.

Definition is_update (c : VfileCall) : Prop :=
  exists data, c = VFILE_Update autoexec_file_name data.

(** The lines of a location that a state holds beyond those of an earlier
    state are named by [inserted]; the lines a configuration text adds: *)
Definition config_lines (section_data : text) : list text :=
  match map trim (getlines [] section_data) with
  | [] => []
  | first :: rest => if check_echo_off first then rest else first :: rest
  end.

(** Whether a configuration text starts with the echo-off line. *)
Definition config_echo_off (section_data : text) : bool :=
  match getlines [] section_data with
  | [] => false
  | first :: _ => check_echo_off (trim first)
  end.

(** The text read back from its lines, a line feed after each. *)
Definition unlines (lines : list text) : text :=
  concat (map (fun line => line ++ [char_lf]) lines).

(** The last call of a sequence that stores under an upper-cased name. *)
Definition last_call (name_upcase : text) (calls : list (text * text))
  : option (text * text) :=
  find (fun c => if text_eq_dec (upcase (fst c)) name_upcase
                 then true else false) (rev calls).

(** ** What the constructor decides, read off its inputs *)

(** Whether one of the [-c] options is an exit call. *)
Definition exit_call_exists (h : Host) (arguments : list text) : bool :=
  existsb is_exit_call (map (replace_quotes h) arguments).

Definition should_add_exit (h : Host) (s : Startup) : bool :=
  exit_call_exists h (c_arguments s) || exit_switch s
  || (instant_launch s && has_executable_name s).

(** The positional arguments that the loop passes over: CD images. *)
Definition is_cd_image (h : Host) (argument : text) : bool :=
  negb (is_directory h argument
        || is_directory h (in_current_path h argument))
  && negb (ends_with (upcase argument) (str ".BAT"))
  && negb (ends_with (upcase argument) (str ".IMG")
           || ends_with (upcase argument) (str ".IMA"))
  && (ends_with (upcase argument) (str ".ISO")
      || ends_with (upcase argument) (str ".CUE")).

(** The boot images among the positional arguments. *)
Definition is_boot_image (h : Host) (argument : text) : bool :=
  negb (is_directory h argument
        || is_directory h (in_current_path h argument))
  && negb (ends_with (upcase argument) (str ".BAT"))
  && (ends_with (upcase argument) (str ".IMG")
      || ends_with (upcase argument) (str ".IMA")).

Definition found_dir_or_command (h : Host) (arguments : list text) : bool :=
  existsb (fun argument => negb (is_cd_image h argument)) arguments.

(** The quoted CD images, separated by spaces. *)
Fixpoint join_images (images : list text) : text :=
  match images with
  | [] => []
  | [image] => (quote ++ image) ++ quote
  | image :: rest => ((quote ++ image) ++ quote) ++ str " " ++ join_images rest
  end.

(** The lines that the first positional argument which is not a CD image
    puts before the [autoexec] section, given the CD images seen so far:
    the mount of the images, then what the kind of the argument asks. *)
Definition launch_lines (h : Host) (secure : bool) (argument : text)
           (cdrom_images : text) : list text :=
  let mount_d :=
    if empty cdrom_images then []
    else [(str "@Z:\IMGMOUNT.COM D " ++ cdrom_images) ++ str " -t iso"] in
  let securemode := if secure then [str "@Z:\CONFIG.COM -securemode"]
                    else [] in
  if is_directory h argument || is_directory h (in_current_path h argument)
  then mount_d
         ++ [str "@Z:\MOUNT.COM C " ++ (quote ++ argument) ++ quote;
             str "@C:"]
         ++ securemode
  else if ends_with (upcase argument) (str ".BAT")
  then mount_d ++ securemode ++ [str "CALL " ++ argument]
  else if ends_with (upcase argument) (str ".IMG")
          || ends_with (upcase argument) (str ".IMA")
  then mount_d ++ [((str "BOOT " ++ quote) ++ argument) ++ quote]
  else mount_d ++ securemode ++ [argument].

(** The configuration text that the constructor processes, if any. *)
Definition used_section (h : Host) (s : Startup) : option text :=
  if noautoexec s then None
  else if text_eq_dec (autoexec_section s) (str "join")
       then Some (configuration_data s)
       else if found_dir_or_command h (commands s) then None
            else Some (overwritten_autoexec_data s).

Definition user_lines (h : Host) (s : Startup) : list text :=
  match used_section h s with
  | Some section_data => config_lines section_data
  | None => []
  end.

Definition startup_echo_off (h : Host) (s : Startup) : bool :=
  match used_section h s with
  | Some section_data => config_echo_off section_data
  | None => false
  end.

Definition after_lines (h : Host) (s : Startup) : list text :=
  (if negb (found_dir_or_command h (commands s)) && securemode s
   then [str "@Z:\CONFIG.COM -securemode"] else [])
    ++ (if should_add_exit h s then [str "@EXIT"] else []).

Definition with_commands (arguments : list text) (s : Startup) : Startup :=
  mkStartup (automount s) (securemode s) (noautoexec s) (autoexec_section s)
            (c_arguments s) (exit_switch s) (instant_launch s)
            (has_executable_name s) arguments (configuration_data s)
            (overwritten_autoexec_data s) (utf8_code_page s).

Definition with_securemode (secure : bool) (s : Startup) : Startup :=
  mkStartup (automount s) secure (noautoexec s) (autoexec_section s)
            (c_arguments s) (exit_switch s) (instant_launch s)
            (has_executable_name s) (commands s) (configuration_data s)
            (overwritten_autoexec_data s) (utf8_code_page s).

(** A host without drive directories, where only "GAMES" is a directory;
    and a start without options, for the examples. *)
Definition plain_host : Host :=
  mkHost (fun dir name => (dir ++ str "/") ++ name)
         (fun _ => false)
         (fun letter _ => (upcase letter, [], []))
         (fun path => path)
         (fun path => if text_eq_dec path (str "GAMES") then true else false)
         (fun path => str "/home/" ++ path)
         false.

Definition with_automount (mount : bool) (s : Startup) : Startup :=
  mkStartup mount (securemode s) (noautoexec s) (autoexec_section s)
            (c_arguments s) (exit_switch s) (instant_launch s)
            (has_executable_name s) (commands s) (configuration_data s)
            (overwritten_autoexec_data s) (utf8_code_page s).

(** The auto-mount loop of the constructor. *)
Definition automount_drives (h : Host) (st : State) : State :=
  fold_left (fun st letter => AutoMountDrive h [letter] st) drive_letters st.

(** A host with the drive directories "drives/c" and "drives/d", the
    first with a PATH value in its configuration. *)
Definition drives_host : Host :=
  mkHost (fun dir name => (dir ++ str "/") ++ name)
         (fun path => if text_eq_dec path (str "drives/c") then true
                      else if text_eq_dec path (str "drives/d") then true
                           else false)
         (fun letter _ =>
            (upcase letter, str " -t dir",
             if text_eq_dec letter (str "c") then str "Z:\;C:\" else []))
         (fun path => str "/res/" ++ path)
         (fun path => if text_eq_dec path (str "GAMES") then true else false)
         (fun path => str "/home/" ++ path)
         true.

Definition plain_startup : Startup :=
  mkStartup false false false (str "join") [] false false false [] [] []
            437.

(** ** What every reachable state satisfies *)

(** The calls to the virtual file system: one registration, the first
    call, and updates after it; one conversion per call. *)
Definition registration_ok (st : State) : Prop :=
  length (utf8_to_dos_calls st) = length (vfile_calls st)
  /\ if is_vfile_registered st
     then exists updates data,
         vfile_calls st
         = updates ++ [VFILE_Register autoexec_file_name data]
         /\ Forall is_update updates
     else vfile_calls st = [].

(** The file holds the stored text in the cached code page. *)
Definition publication_ok (utf8_to_dos : text -> N -> text) (st : State)
  : Prop :=
  published st
  = if is_vfile_registered st
    then Some (utf8_to_dos (autoexec_bat_utf8 st) (vfile_code_page st))
    else None.

(** The variables are stored under upper-cased names, with a value. *)
Definition variables_ok (st : State) : Prop :=
  map_ok text_compare (autoexec_variables st)
  /\ Forall (fun nv => upcase (fst nv) = fst nv /\ snd nv <> [])
            (autoexec_variables st).

Definition invariant (utf8_to_dos : text -> N -> text) (st : State) : Prop :=
  variables_ok st
  /\ map_ok Location_compare (autoexec_lines st)
  /\ registration_ok st
  /\ publication_ok utf8_to_dos st.

(** Two states with the same data of the published file. *)
Definition same_publication (a b : State) : Prop :=
  autoexec_bat_utf8 a = autoexec_bat_utf8 b
  /\ is_vfile_registered a = is_vfile_registered b
  /\ vfile_code_page a = vfile_code_page b
  /\ vfile_calls a = vfile_calls b
  /\ utf8_to_dos_calls a = utf8_to_dos_calls b.

(** A run for the examples: the constructor on a command line with a
    directory, a variable, a second registration and two notifications. *)
Definition sample_operations : list Operation :=
  [CallAutoExecModule drives_host
     (with_automount true (with_commands [str "GAMES"] plain_startup));
   CallSetVariable (str "path") (str "Z:\");
   CallRegisterFile 437;
   CallNotifyNewCodePage false 850;
   CallNotifyNewCodePage false 850].

Definition sample_state : State :=
  state_after (run_all stub_utf8_to_dos default_messages true
                       sample_operations initial_state) initial_state.

Unset Implicit Arguments.

(** * Properties *)

(** ** Text and lines *)

Lemma push_new_line_app (o : text) : push_new_line o = o ++ crlf.
Proof. unfold push_new_line, crlf. now rewrite <- app_assoc. Qed.

Lemma push_chars_app (line o : text) :
  fold_left (fun o character => o ++ [character]) line o = o ++ line.
Proof.
  revert o. induction line as [|c line IH]; intros o; simpl.
  - now rewrite app_nil_r.
  - rewrite IH, <- app_assoc. reflexivity.
Qed.

Lemma push_string_app (o line : text) : push_string o line = o ++ line ++ crlf.
Proof.
  unfold push_string. destruct line as [|c line]; simpl empty; cbv iota.
  - apply push_new_line_app.
  - now rewrite push_chars_app, push_new_line_app, <- app_assoc.
Qed.

Lemma emit_app (a b : list text) : emit (a ++ b) = emit a ++ emit b.
Proof. unfold emit. now rewrite map_app, concat_app. Qed.

Lemma emit_cons (l : text) (ls : list text) :
  emit (l :: ls) = (l ++ crlf) ++ emit ls.
Proof. reflexivity. Qed.

Lemma push_lines_app (ls : list text) (o : text) :
  fold_left push_string ls o = o ++ emit ls.
Proof.
  revert o. induction ls as [|l ls IH]; intros o; simpl.
  - now rewrite app_nil_r.
  - rewrite IH, push_string_app, emit_cons, <- !app_assoc. reflexivity.
Qed.

Lemma empty_app (A : Type) (a b : list A) :
  empty (a ++ b) = empty a && empty b.
Proof. now destruct a. Qed.

Lemma empty_emit (ls : list text) : empty (emit ls) = empty ls.
Proof.
  destruct ls as [|l ls]; [reflexivity|].
  rewrite emit_cons, !empty_app. unfold crlf. simpl.
  now rewrite andb_false_r.
Qed.

(** ** The generated text, line by line *)

Section GenerationFacts.
Variable MSG_Get : text -> text.

Lemma push_set_lines (variables : std_map text text) (o : text) :
  fold_left
    (fun o nv => push_string o
                   (((str "@SET " ++ fst nv) ++ str "=") ++ snd nv))
    variables o
  = o ++ emit (map set_line variables).
Proof.
  revert o. induction variables as [|nv r IH]; intros o.
  - simpl. now rewrite app_nil_r.
  - change (fold_left ?f (nv :: r) o) with (fold_left f r (f o nv)).
    rewrite IH, push_string_app.
    change (map set_line (nv :: r)) with (set_line nv :: map set_line r).
    rewrite emit_cons. unfold set_line. rewrite <- !app_assoc. reflexivity.
Qed.

Lemma print_preamble_lines (echo_off : bool) (variables : std_map text text) :
  print_preamble MSG_Get echo_off variables
  = mkPrinter (emit (preamble_lines MSG_Get echo_off variables))
              (echo_off || negb (empty variables)) false.
Proof.
  unfold print_preamble, preamble_lines.
  destruct echo_off, variables as [|nv r]; simpl orb; simpl negb;
    cbv iota; cbv beta zeta; simpl out; simpl prints_generated;
    simpl prints_config_section; cbv iota; try reflexivity; f_equal;
    rewrite ?push_set_lines, ?push_new_line_app, ?push_string_app,
      ?push_new_line_app, ?push_string_app, ?push_new_line_app;
    rewrite ?emit_app, ?emit_cons; simpl emit;
    rewrite <- ?app_assoc; simpl; rewrite <- ?app_assoc; reflexivity.
Qed.
End GenerationFacts.

Section SectionsFacts.
Variable MSG_Get : text -> text.

Lemma print_sections_lines (m : std_map Location (list text)) (p : Printer) :
  out (fold_left (print_section MSG_Get) m p)
  = out p ++ emit (body_lines MSG_Get (empty (out p)) (prints_generated p)
                              (prints_config_section p) m).
Proof.
  revert p. induction m as [|[source ls] r IH]; intros [o g c].
  - simpl. now rewrite app_nil_r.
  - change (fold_left ?f ((source, ls) :: r) ?p)
      with (fold_left f r (f p (source, ls))).
    rewrite IH. clear IH. destruct ls as [|l ls].
    + destruct source; reflexivity.
    + assert (E : forall x, empty ((x ++ emit (l :: ls)) : text) = false).
      { intros x. rewrite empty_app, empty_emit. apply andb_false_r. }
      destruct source, g, c, o as [|ch o];
        cbn [print_section out prints_generated prints_config_section
             negb empty body_lines banner_lines andb];
        rewrite ?push_lines_app, ?push_new_line_app, ?push_string_app,
          ?push_new_line_app;
        rewrite ?E;
        rewrite ?emit_app, ?emit_cons, <- ?app_assoc; cbn [app emit concat map];
        rewrite ?E; rewrite <- ?app_assoc; try reflexivity;
        unfold banner_lines; cbn [app]; rewrite ?emit_cons;
        change (emit []) with (@nil ascii); cbn [app];
        rewrite <- ?app_assoc; reflexivity.
Qed.
End SectionsFacts.

Lemma create_autoexec_bat_utf8_lines (MSG_Get : text -> text) (st : State) :
  let preamble :=
    autoexec_has_echo_off st || negb (empty (autoexec_variables st)) in
  create_autoexec_bat_utf8 MSG_Get st
  = emit (preamble_lines MSG_Get (autoexec_has_echo_off st)
                         (autoexec_variables st)
          ++ body_lines MSG_Get (negb preamble) preamble false
                        (autoexec_lines st)).
Proof.
  intros preamble. unfold create_autoexec_bat_utf8.
  rewrite print_sections_lines, print_preamble_lines.
  cbn [out prints_generated prints_config_section].
  rewrite empty_emit, emit_app. do 2 f_equal.
  unfold preamble_lines. fold preamble. now destruct preamble.
Qed.

(** ** Ordered maps *)

Section StdMapFacts.
Variables K V : Type.
Variable cmp : K -> K -> comparison.
Hypothesis cmp_eq : forall a b, cmp a b = Eq <-> a = b.
Hypothesis cmp_antisym : forall a b, cmp b a = CompOpp (cmp a b).
Hypothesis cmp_trans : forall a b c, cmp a b = Lt -> cmp b c = Lt -> cmp a c = Lt.

Local Abbreviation lt := (fun a b => cmp a b = Lt).
Local Abbreviation find := (map_find (V:=V) cmp).
Local Abbreviation at_ := (map_at (V:=V) cmp).
Local Abbreviation erase := (map_erase (V:=V) cmp).
Local Abbreviation ok := (map_ok (V:=V) cmp).

Lemma cmp_refl (a : K) : cmp a a = Eq.
Proof. now apply cmp_eq. Qed.

Lemma cmp_gt_lt (a b : K) : cmp a b = Gt -> cmp b a = Lt.
Proof. intros H. now rewrite cmp_antisym, H. Qed.

Lemma ok_cons_inv (k : K) (v : V) (m : std_map K V) :
  ok ((k, v) :: m) -> Forall (lt k) (keys m) /\ ok m.
Proof. unfold map_ok. cbn. intros H. inversion H; subst. now split. Qed.

Lemma ok_cons (k : K) (v : V) (m : std_map K V) :
  Forall (lt k) (keys m) -> ok m -> ok ((k, v) :: m).
Proof. unfold map_ok. cbn. intros. now constructor. Qed.

(** Below every key, nothing is found. *)
Lemma find_below (k : K) (m : std_map K V) :
  Forall (lt k) (keys m) -> find k m = None.
Proof.
  destruct m as [|[k' v'] r]; [reflexivity|]. cbn. intros H.
  inversion H; subst. now rewrite H2.
Qed.

Lemma find_at_same (k : K) (d : V) (f : V -> V) (m : std_map K V) :
  find k (at_ k d f m)
  = Some (f (match find k m with Some v => v | None => d end)).
Proof.
  induction m as [|[k' v'] r IH]; cbn.
  - now rewrite cmp_refl.
  - destruct (cmp k k') eqn:E; cbn.
    + now rewrite E.
    + now rewrite cmp_refl.
    + now rewrite E.
Qed.

Lemma find_at_other (k k' : K) (d : V) (f : V -> V) (m : std_map K V) :
  k <> k' -> find k (at_ k' d f m) = find k m.
Proof.
  intros N. induction m as [|[k1 v1] r IH]; cbn.
  - destruct (cmp k k') eqn:E; try reflexivity.
    apply cmp_eq in E. contradiction.
  - destruct (cmp k' k1) eqn:E1; cbn.
    + apply cmp_eq in E1. subst k1.
      destruct (cmp k k') eqn:E; try reflexivity.
      apply cmp_eq in E. contradiction.
    + destruct (cmp k k') eqn:E; try reflexivity.
      * apply cmp_eq in E. contradiction.
      * now rewrite (cmp_trans _ _ _ E E1).
    + now rewrite IH.
Qed.

Lemma keys_at (P : K -> Prop) (k : K) (d : V) (f : V -> V) (m : std_map K V) :
  P k -> Forall P (keys m) -> Forall P (keys (at_ k d f m)).
Proof.
  intros Hk. induction m as [|[k' v'] r IH]; cbn; intros H.
  - now constructor.
  - inversion H; subst. destruct (cmp k k'); cbn; constructor; auto.
Qed.

Lemma keys_erase (P : K -> Prop) (k : K) (m : std_map K V) :
  Forall P (keys m) -> Forall P (keys (erase k m)).
Proof.
  induction m as [|[k' v'] r IH]; cbn; intros H; [assumption|].
  inversion H; subst. destruct (cmp k k'); cbn; auto.
Qed.

Lemma ok_at (k : K) (d : V) (f : V -> V) (m : std_map K V) :
  ok m -> ok (at_ k d f m).
Proof.
  induction m as [|[k' v'] r IH]; intros H.
  - cbn. apply ok_cons; [constructor | exact H].
  - destruct (ok_cons_inv _ _ _ H) as [Hall Hr]. cbn.
    destruct (cmp k k') eqn:E.
    + apply ok_cons; assumption.
    + apply ok_cons; [|exact H]. cbn. constructor; [exact E|].
      eapply Forall_impl; [|exact Hall]. cbn. intros a Ha.
      now apply cmp_trans with k'.
    + apply ok_cons; [|now apply IH].
      apply keys_at; [now apply cmp_gt_lt | assumption].
Qed.

Lemma ok_erase (k : K) (m : std_map K V) : ok m -> ok (erase k m).
Proof.
  induction m as [|[k' v'] r IH]; intros H; [exact H|].
  destruct (ok_cons_inv _ _ _ H) as [Hall Hr]. cbn.
  destruct (cmp k k'); auto.
  apply ok_cons; [now apply keys_erase | now apply IH].
Qed.

Lemma find_erase_same (k : K) (m : std_map K V) :
  ok m -> find k (erase k m) = None.
Proof.
  induction m as [|[k' v'] r IH]; intros H; [reflexivity|].
  destruct (ok_cons_inv _ _ _ H) as [Hall Hr]. cbn.
  destruct (cmp k k') eqn:E; cbn.
  - apply cmp_eq in E. subst k'. now apply find_below.
  - now rewrite E.
  - rewrite E. now apply IH.
Qed.

Lemma find_erase_other (k k' : K) (m : std_map K V) :
  ok m -> k <> k' -> find k (erase k' m) = find k m.
Proof.
  intros H N. induction m as [|[k1 v1] r IH]; [reflexivity|].
  destruct (ok_cons_inv _ _ _ H) as [Hall Hr]. cbn.
  destruct (cmp k' k1) eqn:E1; cbn.
  - apply cmp_eq in E1. subst k1.
    destruct (cmp k k') eqn:E.
    + apply cmp_eq in E. contradiction.
    + apply find_below. eapply Forall_impl; [|exact Hall].
      cbn. intros a Ha. exact (cmp_trans _ _ _ E Ha).
    + reflexivity.
  - reflexivity.
  - now rewrite IH.
Qed.

(** Two maps with the same entries are the same map. *)
Lemma map_ext (m1 m2 : std_map K V) :
  ok m1 -> ok m2 -> (forall k, find k m1 = find k m2) -> m1 = m2.
Proof.
  revert m2. induction m1 as [|[k1 v1] r1 IH]; intros [|[k2 v2] r2] H1 H2 E.
  - reflexivity.
  - specialize (E k2). cbn in E. rewrite cmp_refl in E. discriminate.
  - specialize (E k1). cbn in E. rewrite cmp_refl in E. discriminate.
  - destruct (ok_cons_inv _ _ _ H1) as [A1 O1], (ok_cons_inv _ _ _ H2) as [A2 O2].
    assert (K12 : k1 = k2 /\ v1 = v2).
    { pose proof (E k1) as E1. pose proof (E k2) as E2. cbn in E1, E2.
      rewrite cmp_refl in E1, E2.
      destruct (cmp k1 k2) eqn:C; [|discriminate|].
      - apply cmp_eq in C. split; congruence.
      - rewrite (cmp_gt_lt _ _ C) in E2. discriminate. }
    destruct K12; subst k2 v2. f_equal. apply IH; auto.
    intros k. specialize (E k). cbn in E.
    destruct (cmp k k1) eqn:C; [| |exact E].
    + apply cmp_eq in C. subst k. now rewrite !find_below.
    + rewrite !find_below; auto.
      * eapply Forall_impl; [|exact A2]. cbn. intros a Ha.
        exact (cmp_trans _ _ _ C Ha).
      * eapply Forall_impl; [|exact A1]. cbn. intros a Ha.
        exact (cmp_trans _ _ _ C Ha).
Qed.

Lemma erase_absent (k : K) (m : std_map K V) :
  find k m = None -> erase k m = m.
Proof.
  induction m as [|[k' v'] r IH]; [reflexivity|]. cbn.
  destruct (cmp k k'); intros H; [discriminate|reflexivity|].
  now rewrite IH.
Qed.

Lemma erase_at (k : K) (d : V) (f : V -> V) (m : std_map K V) :
  erase k (at_ k d f m) = erase k m.
Proof.
  induction m as [|[k' v'] r IH]; cbn.
  - now rewrite cmp_refl.
  - destruct (cmp k k') eqn:E; cbn.
    + now rewrite E.
    + now rewrite cmp_refl.
    + now rewrite E, IH.
Qed.
End StdMapFacts.

(** ** The two key orders *)

Lemma Location_compare_eq (a b : Location) :
  Location_compare a b = Eq <-> a = b.
Proof. destruct a, b; cbn; split; congruence. Qed.

Lemma Location_compare_antisym (a b : Location) :
  Location_compare b a = CompOpp (Location_compare a b).
Proof. now destruct a, b. Qed.

Lemma Location_compare_trans (a b c : Location) :
  Location_compare a b = Lt -> Location_compare b c = Lt ->
  Location_compare a c = Lt.
Proof. destruct a, b, c; cbn; congruence. Qed.

Lemma ascii_compare_refl (x : ascii) : Ascii.compare x x = Eq.
Proof. unfold Ascii.compare. apply N.compare_refl. Qed.

Lemma ascii_compare_trans (x y z : ascii) :
  Ascii.compare x y = Lt -> Ascii.compare y z = Lt -> Ascii.compare x z = Lt.
Proof.
  unfold Ascii.compare. rewrite !N.compare_lt_iff. apply N.lt_trans.
Qed.

Lemma text_compare_eq (a b : text) : text_compare a b = Eq <-> a = b.
Proof.
  revert b. induction a as [|x a IH]; intros [|y b]; cbn;
    try (split; congruence).
  destruct (Ascii.compare x y) eqn:E.
  - apply Ascii.compare_eq_iff in E. subst y. rewrite IH.
    split; congruence.
  - split; [discriminate|]. intros H. injection H as -> _.
    rewrite ascii_compare_refl in E. discriminate.
  - split; [discriminate|]. intros H. injection H as -> _.
    rewrite ascii_compare_refl in E. discriminate.
Qed.

Lemma text_compare_antisym (a b : text) :
  text_compare b a = CompOpp (text_compare a b).
Proof.
  revert b. induction a as [|x a IH]; intros [|y b]; cbn; try reflexivity.
  rewrite (Ascii.compare_antisym x y).
  destruct (Ascii.compare y x); cbn; auto.
Qed.

Lemma text_compare_trans (a b c : text) :
  text_compare a b = Lt -> text_compare b c = Lt -> text_compare a c = Lt.
Proof.
  revert b c. induction a as [|x a IH]; intros [|y b] [|z c]; cbn;
    try congruence.
  destruct (Ascii.compare x y) eqn:Exy; try discriminate.
  - apply Ascii.compare_eq_iff in Exy. subst y.
    destruct (Ascii.compare x z); try congruence. apply IH.
  - destruct (Ascii.compare y z) eqn:Eyz; try discriminate.
    + apply Ascii.compare_eq_iff in Eyz. subst z. now rewrite Exy.
    + now rewrite (@ascii_compare_trans x y z Exy Eyz).
Qed.

(** ** The three buffers *)

(** Only the buffers of a map of lines matter, in the order of the
    enumeration. *)
Lemma body_lines_canonical (MSG_Get : text -> text)
      (nothing_yet generated config_section : bool)
      (m : std_map Location (list text)) :
  map_ok Location_compare m ->
  body_lines MSG_Get nothing_yet generated config_section m
  = body_lines MSG_Get nothing_yet generated config_section
      [(GeneratedBeforeAutoexec, lines_at GeneratedBeforeAutoexec m);
       (ConfigFileAutoexec, lines_at ConfigFileAutoexec m);
       (GeneratedAfterAutoexec, lines_at GeneratedAfterAutoexec m)].
Proof.
  intros H.
  destruct m as [|[k1 v1] [|[k2 v2] [|[k3 v3] [|[k4 v4] r]]]];
    unfold map_ok, keys in H; cbn [map fst] in H;
    repeat match goal with
           | H : StronglySorted _ (_ :: _) |- _ =>
               apply StronglySorted_inv in H; destruct H as [H ?]
           | F : Forall _ (_ :: _) |- _ =>
               apply Forall_cons_iff in F; destruct F as [? F]
           end.
  - reflexivity.
  - destruct k1, v1; reflexivity.
  - destruct k1, k2; try discriminate; destruct v1, v2; reflexivity.
  - destruct k1, k2; try discriminate; destruct k3; try discriminate;
      destruct v1, v2, v3; reflexivity.
  - destruct k1, k2; try discriminate; destruct k3; try discriminate;
      destruct k4; discriminate.
Qed.

Lemma lines_at_push_back (location location' : Location) (line : text)
      (m : std_map Location (list text)) :
  lines_at location
           (map_at Location_compare location' [] (fun l => l ++ [line]) m)
  = lines_at location m
      ++ (if Location_eqb location' location then [line] else []).
Proof.
  unfold lines_at.
  destruct (Location_eqb location' location) eqn:E.
  - assert (location' = location) by (now destruct location', location).
    subst location'.
    rewrite (find_at_same _ _ _ Location_compare_eq).
    now destruct (map_find Location_compare location m).
  - rewrite (find_at_other _ _ _ Location_compare_eq Location_compare_trans).
    + now rewrite app_nil_r.
    + intros ->. now destruct location'.
Qed.

Lemma insert_frame (st : State) (c : Insertion) :
  autoexec_has_echo_off (insert st c) = autoexec_has_echo_off st
  /\ autoexec_variables (insert st c) = autoexec_variables st
  /\ (map_ok Location_compare (autoexec_lines st) ->
      map_ok Location_compare (autoexec_lines (insert st c)))
  /\ forall location,
      buffer location (insert st c)
      = buffer location st ++ inserted location [c].
Proof.
  repeat split; try (now destruct c).
  - intros H. destruct c; cbn;
      apply (ok_at _ _ _ Location_compare_antisym Location_compare_trans); exact H.
  - intros location. unfold inserted, buffer.
    destruct c; cbn [insert AddCommandBefore AddCommandAfter AddAutoExecLine
                     push_back_at with_lines autoexec_lines];
      rewrite lines_at_push_back; destruct location; reflexivity.
Qed.

Lemma inserted_app (location : Location) (a b : list Insertion) :
  inserted location (a ++ b) = inserted location a ++ inserted location b.
Proof. unfold inserted. now rewrite filter_app, map_app. Qed.

Lemma insertions_frame (calls : list Insertion) (st : State) :
  autoexec_has_echo_off (fold_left insert calls st) = autoexec_has_echo_off st
  /\ autoexec_variables (fold_left insert calls st) = autoexec_variables st
  /\ (map_ok Location_compare (autoexec_lines st) ->
      map_ok Location_compare (autoexec_lines (fold_left insert calls st)))
  /\ forall location,
      buffer location (fold_left insert calls st)
      = buffer location st ++ inserted location calls.
Proof.
  revert st. induction calls as [|c calls IH]; intros st.
  - cbn. repeat split; auto. intros. now rewrite app_nil_r.
  - cbn [fold_left]. destruct (IH (insert st c)) as (E & V & O & B).
    destruct (insert_frame st c) as (E1 & V1 & O1 & B1).
    repeat split; try congruence; auto.
    intros location. rewrite B, B1, <- app_assoc. f_equal.
    exact (eq_sym (inserted_app location [c] calls)).
Qed.

Lemma empty_preamble_lines (MSG_Get : text -> text) (echo_off : bool)
      (variables : std_map text text) :
  empty (preamble_lines MSG_Get echo_off variables)
  = negb (echo_off || negb (empty variables)).
Proof. unfold preamble_lines. now destruct (echo_off || _). Qed.

(** The script in terms of the three buffers. *)
Lemma script_of_buffers (MSG_Get : text -> text) (st : State) :
  map_ok Location_compare (autoexec_lines st) ->
  let head := preamble_lines MSG_Get (autoexec_has_echo_off st)
                             (autoexec_variables st) in
  let pre := buffer GeneratedBeforeAutoexec st in
  let user := buffer ConfigFileAutoexec st in
  let post := buffer GeneratedAfterAutoexec st in
  let banner_pre :=
    if empty pre || negb (empty head) then []
    else banner_lines true (comment_generated MSG_Get) in
  let banner_user :=
    if empty user then []
    else banner_lines (empty head && empty pre)
                      (comment_config_section MSG_Get) in
  let banner_post :=
    if empty post then []
    else if empty user
         then if empty head && empty pre
              then banner_lines true (comment_generated MSG_Get) else []
         else banner_lines false (comment_generated MSG_Get) in
  create_autoexec_bat_utf8 MSG_Get st
  = emit (head ++ banner_pre ++ pre ++ banner_user ++ user
               ++ banner_post ++ post).
Proof.
  intros H head pre user post banner_pre banner_user banner_post.
  rewrite create_autoexec_bat_utf8_lines, (body_lines_canonical _ _ _ _ _ H).
  fold (buffer GeneratedBeforeAutoexec st) (buffer ConfigFileAutoexec st)
       (buffer GeneratedAfterAutoexec st).
  fold pre user post head. f_equal. f_equal.
  subst banner_pre banner_user banner_post.
  assert (Eh : empty head
               = negb (autoexec_has_echo_off st
                       || negb (empty (autoexec_variables st))))
    by apply empty_preamble_lines.
  rewrite !Eh.
  destruct (autoexec_has_echo_off st || negb (empty (autoexec_variables st)));
    clearbody pre user post head; clear;
    destruct pre, user, post; cbn; rewrite ?app_nil_r, <- ?app_assoc;
    reflexivity.
Qed.

Lemma body_lines_all_empty (MSG_Get : text -> text) (e g c : bool)
      (m : std_map Location (list text)) :
  Forall (fun entry => snd entry = []) m -> body_lines MSG_Get e g c m = [].
Proof.
  induction 1 as [|[k v] r Hv _ IH]; [reflexivity|].
  cbn in Hv. subst v. destruct k; exact IH.
Qed.

(** ** The rendered script *)

(** C1: for every sequence of AddCommandBefore / AddAutoExecLine /
    AddCommandAfter calls, however interleaved, the generated text is the
    preamble, then all the lines of GeneratedBeforeAutoexec, then all the
    lines of ConfigFileAutoexec, then all the lines of
    GeneratedAfterAutoexec, each group in the order of its calls (after the
    lines the group already had), with only banners between the groups. *)
Theorem origin_order (MSG_Get : text -> text) (st : State)
        (calls : list Insertion) :
  map_ok Location_compare (autoexec_lines st) ->
  let st' := fold_left insert calls st in
  let head := preamble_lines MSG_Get (autoexec_has_echo_off st)
                             (autoexec_variables st) in
  let pre := buffer GeneratedBeforeAutoexec st
             ++ inserted GeneratedBeforeAutoexec calls in
  let user := buffer ConfigFileAutoexec st
              ++ inserted ConfigFileAutoexec calls in
  let post := buffer GeneratedAfterAutoexec st
              ++ inserted GeneratedAfterAutoexec calls in
  let banner_pre :=
    if empty pre || negb (empty head) then []
    else banner_lines true (comment_generated MSG_Get) in
  let banner_user :=
    if empty user then []
    else banner_lines (empty head && empty pre)
                      (comment_config_section MSG_Get) in
  let banner_post :=
    if empty post then []
    else if empty user
         then if empty head && empty pre
              then banner_lines true (comment_generated MSG_Get) else []
         else banner_lines false (comment_generated MSG_Get) in
  create_autoexec_bat_utf8 MSG_Get st'
  = emit (head ++ banner_pre ++ pre ++ banner_user ++ user
               ++ banner_post ++ post).
Proof.
  intros H st'.
  destruct (insertions_frame calls st) as (E & V & O & B).
  fold st' in E, V, O, B.
  rewrite <- E, <- V, <- !B.
  exact (script_of_buffers MSG_Get st' (O H)).
Qed.

Lemma origin_order_witness :
  map_ok Location_compare (autoexec_lines initial_state)
  /\ create_autoexec_bat_utf8 default_messages
       (fold_left insert
          [After (str "@EXIT"); User (str "DIR"); Before (str "MOUNT C");
           User (str "GAME"); Before (str "C:")]
          initial_state)
     = emit [str ":: autogenerated"; []; str "MOUNT C"; str "C:"; [];
             str ":: from [autoexec] section"; []; str "DIR"; str "GAME"; [];
             str ":: autogenerated"; []; str "@EXIT"].
Proof.
  split.
  - constructor.
  - exact (origin_order default_messages initial_state
             [After (str "@EXIT"); User (str "DIR"); Before (str "MOUNT C");
              User (str "GAME"); Before (str "C:")]
             (SSorted_nil _)).
Defined.

(** C9: with the echo-off flag unset, no variable and every buffer empty,
    the generated text is the empty string. *)
Theorem empty_composer_empty_script (MSG_Get : text -> text) (st : State) :
  autoexec_has_echo_off st = false ->
  autoexec_variables st = [] ->
  all_buffers_empty st ->
  create_autoexec_bat_utf8 MSG_Get st = [].
Proof.
  intros E V B. rewrite create_autoexec_bat_utf8_lines, E, V.
  now rewrite (body_lines_all_empty _ _ _ _ _ B).
Qed.

Lemma empty_composer_empty_script_witness :
  autoexec_has_echo_off initial_state = false
  /\ autoexec_variables initial_state = []
  /\ all_buffers_empty initial_state
  /\ create_autoexec_bat_utf8 default_messages initial_state = [].
Proof.
  assert (B : all_buffers_empty initial_state) by constructor.
  split; [reflexivity|]. split; [reflexivity|]. split; [exact B|].
  exact (empty_composer_empty_script default_messages initial_state
           eq_refl eq_refl B).
Defined.

(** C7: with the echo-off flag set, no variable and every buffer empty, the
    generated text is exactly four lines: the banner of generated lines, a
    blank line, [@ECHO OFF], a blank line, each ended by carriage return
    then line feed. *)
Theorem echo_off_alone (MSG_Get : text -> text) (st : State) :
  autoexec_has_echo_off st = true ->
  autoexec_variables st = [] ->
  all_buffers_empty st ->
  create_autoexec_bat_utf8 MSG_Get st
  = (comment_generated MSG_Get ++ [char_cr; char_lf])
      ++ [char_cr; char_lf]
      ++ (str "@ECHO OFF" ++ [char_cr; char_lf])
      ++ [char_cr; char_lf].
Proof.
  intros E V B. rewrite create_autoexec_bat_utf8_lines, E, V.
  rewrite (body_lines_all_empty _ _ _ _ _ B). reflexivity.
Qed.

Lemma echo_off_alone_witness :
  let st := with_echo_off true initial_state in
  autoexec_has_echo_off st = true
  /\ autoexec_variables st = []
  /\ all_buffers_empty st
  /\ create_autoexec_bat_utf8 default_messages st
     = (str ":: autogenerated" ++ [char_cr; char_lf])
         ++ [char_cr; char_lf]
         ++ (str "@ECHO OFF" ++ [char_cr; char_lf])
         ++ [char_cr; char_lf].
Proof.
  intros st.
  assert (B : all_buffers_empty st) by constructor.
  split; [reflexivity|]. split; [reflexivity|]. split; [exact B|].
  exact (echo_off_alone default_messages st eq_refl eq_refl B).
Defined.

(** C2, as the code has it: with the echo-off flag unset and at least one
    variable, the generated text starts with the banner of generated lines,
    ONE blank line, one [@SET NAME=VALUE] line per variable in the order of
    the mapping, and a blank line; the sections of lines follow.  A single
    blank line separates the banner from the first [@SET] line. *)
Theorem variables_preamble (MSG_Get : text -> text) (st : State) :
  autoexec_has_echo_off st = false ->
  autoexec_variables st <> [] ->
  create_autoexec_bat_utf8 MSG_Get st
  = emit ([comment_generated MSG_Get; []]
            ++ map set_line (autoexec_variables st)
            ++ [[]]
            ++ body_lines MSG_Get false true false (autoexec_lines st)).
Proof.
  intros E V. rewrite create_autoexec_bat_utf8_lines, E.
  destruct (autoexec_variables st) as [|nv r]; [contradiction|].
  unfold preamble_lines. cbn [orb empty negb app].
  now rewrite <- !app_assoc.
Qed.

Lemma variables_preamble_witness :
  let st := state_after
              (AUTOEXEC_SetVariable false (str "path") (str "C:\X")
                                    initial_state) initial_state in
  autoexec_has_echo_off st = false
  /\ autoexec_variables st <> []
  /\ create_autoexec_bat_utf8 default_messages st
     = emit [str ":: autogenerated"; []; str "@SET PATH=C:\X"; []].
Proof.
  intros st.
  assert (V : autoexec_variables st <> []) by discriminate.
  split; [reflexivity|]. split; [exact V|].
  exact (variables_preamble default_messages st eq_refl V).
Defined.

(** C2 as stated fails: with one variable and no echo-off, the generated
    text does not start with the banner followed by two blank lines and the
    [@SET] line. *)
Lemma two_blank_lines_counterexample :
  let st := state_after
              (AUTOEXEC_SetVariable false (str "path") (str "C:\X")
                                    initial_state) initial_state in
  autoexec_has_echo_off st = false
  /\ autoexec_variables st <> []
  /\ ~ exists rest,
        create_autoexec_bat_utf8 default_messages st
        = emit ([comment_generated default_messages; []]
                  ++ ([] :: map set_line (autoexec_variables st))
                  ++ [[]])
            ++ rest.
Proof.
  intros st. split; [reflexivity|]. split; [discriminate|].
  intros [rest H]. vm_compute in H. discriminate H.
Qed.

(** ** The [autoexec] section of the configuration *)

Lemma isspace_tolower (c : ascii) : isspace (tolower c) = isspace c.
Proof. destruct c as [[] [] [] [] [] [] [] []]; reflexivity. Qed.

Lemma forallb_isspace_lowcase (s : text) :
  forallb isspace (lowcase s) = forallb isspace s.
Proof.
  induction s as [|c s IH]; [reflexivity|].
  cbn. now rewrite isspace_tolower, <- IH.
Qed.

Lemma firstn_length_app (A : Type) (a b : list A) :
  firstn (length a) (a ++ b) = a.
Proof. induction a; cbn; congruence. Qed.

Lemma skipn_length_app (A : Type) (a b : list A) :
  skipn (length a) (a ++ b) = b.
Proof. induction a; cbn; congruence. Qed.

Lemma lowcase_length (s : text) : length (lowcase s) = length s.
Proof. apply length_map. Qed.

Lemma lowcase_app (a b : text) : lowcase (a ++ b) = lowcase a ++ lowcase b.
Proof. apply map_app. Qed.

Lemma echo_off_test_sound (tmp : text) :
  echo_off_test tmp = true ->
  exists e ws o,
    tmp = e ++ ws ++ o /\ lowcase e = str "echo" /\ ws <> []
    /\ forallb isspace ws = true /\ lowcase o = str "off".
Proof.
  unfold echo_off_test. destruct (Nat.ltb_spec (length tmp) 8) as [|L];
    [discriminate|].
  rewrite lowcase_length.
  destruct (text_eq_dec (substr 0 4 (lowcase tmp)) (str "echo")) as [E|];
    [|discriminate].
  destruct (ends_with (lowcase tmp) (str "off")) eqn:O; [|discriminate].
  cbn [orb negb]. intros W.
  unfold ends_with in O. apply andb_prop in O. destruct O as [_ O].
  destruct (text_eq_dec _ _) as [O'|]; [clear O|discriminate].
  rewrite lowcase_length in O'. change (length (str "off")) with 3 in O'.
  unfold substr in *. cbn [skipn] in E. unfold lowcase in E, O', W.
  rewrite firstn_map in E. rewrite skipn_map in O', W.
  rewrite firstn_map in W. fold (lowcase (firstn 4 tmp)) in E.
  fold (lowcase (skipn (length tmp - 3) tmp)) in O'.
  fold (lowcase (firstn (length tmp - 7) (skipn 4 tmp))) in W.
  rewrite forallb_isspace_lowcase in W.
  exists (firstn 4 tmp), (firstn (length tmp - 7) (skipn 4 tmp)),
    (skipn (length tmp - 3) tmp).
  repeat apply conj; try assumption.
  - rewrite <- (firstn_skipn 4 tmp) at 1. f_equal.
    rewrite <- (firstn_skipn (length tmp - 7) (skipn 4 tmp)) at 1. f_equal.
    rewrite skipn_skipn. f_equal. lia.
  - intros N. apply (f_equal (@length ascii)) in N.
    rewrite length_firstn, length_skipn in N. cbn in N. lia.
Qed.

Lemma echo_off_test_complete (e ws o : text) :
  lowcase e = str "echo" -> ws <> [] -> forallb isspace ws = true ->
  lowcase o = str "off" ->
  echo_off_test (e ++ ws ++ o) = true.
Proof.
  intros E N W O.
  assert (Le : length e = 4)
    by (rewrite <- lowcase_length, E; reflexivity).
  assert (Lo : length o = 3)
    by (rewrite <- lowcase_length, O; reflexivity).
  assert (Lw : 1 <= length ws) by (destruct ws; [contradiction|cbn; lia]).
  unfold echo_off_test. rewrite !length_app, Le, Lo.
  destruct (Nat.ltb_spec (4 + (length ws + 3)) 8); [lia|].
  rewrite !lowcase_app, E, O.
  unfold substr.
  change (firstn 4 (skipn 0 (str "echo" ++ lowcase ws ++ str "off")))
    with (str "echo").
  destruct (text_eq_dec (str "echo") (str "echo")); [|contradiction].
  cbn [orb].
  assert (S : ends_with (str "echo" ++ lowcase ws ++ str "off") (str "off")
              = true).
  { unfold ends_with. rewrite !length_app, lowcase_length.
    change (length (str "off")) with 3. change (length (str "echo")) with 4.
    replace (4 + (length ws + 3) - 3)
      with (length (str "echo" ++ lowcase ws))
      by (rewrite length_app, lowcase_length; cbn; lia).
    rewrite app_assoc, skipn_length_app.
    destruct (text_eq_dec (str "off") (str "off")); [|contradiction].
    destruct (Nat.leb_spec 3 (length (str "echo" ++ lowcase ws) + 3));
      [reflexivity|lia]. }
  rewrite S. cbn [negb].
  rewrite !length_app, lowcase_length.
  change (length (str "off")) with 3. change (length (str "echo")) with 4.
  change (skipn 4 (str "echo" ++ lowcase ws ++ str "off"))
    with (lowcase ws ++ str "off").
  replace (4 + (length ws + 3) - 7) with (length (lowcase ws))
    by (rewrite lowcase_length; lia).
  rewrite firstn_length_app. now rewrite forallb_isspace_lowcase.
Qed.

Lemma check_echo_off_unfold (line : text) :
  check_echo_off line
  = match line with
    | [] => false
    | c :: r => echo_off_test (if ascii_dec c "@"%char then r else line)
    end.
Proof.
  destruct line as [|c r]; [reflexivity|].
  assert (S1 : substr 1 (length (c :: r)) (c :: r) = r).
  { unfold substr. cbn [skipn length]. apply firstn_all2. lia. }
  unfold check_echo_off. cbn [empty]. cbv zeta.
  destruct (ascii_dec c "@"%char); [|reflexivity].
  cbn [length] in S1 |- *. rewrite !S1. reflexivity.
Qed.

Lemma check_echo_off_pattern (line : text) :
  check_echo_off line = true <-> echo_off_pattern line.
Proof.
  rewrite check_echo_off_unfold. split.
  - destruct line as [|c r]; [discriminate|].
    destruct (ascii_dec c "@"%char) as [->|]; intros T;
      destruct (echo_off_test_sound _ T) as (e & ws & o & L & E & N & W & O).
    + exists (str "@"), e, ws, o. rewrite L. repeat apply conj; auto.
    + exists [], e, ws, o. repeat apply conj; auto.
  - intros (a & e & ws & o & L & A & E & N & W & O). subst line.
    pose proof (echo_off_test_complete e ws o E N W O) as T.
    destruct A as [-> | ->].
    + destruct e as [|c e]; [discriminate|]. cbn [app] in *.
      destruct (ascii_dec c "@"%char) as [->|]; [discriminate|exact T].
    + cbn [app str list_ascii_of_string].
      destruct (ascii_dec "@"%char "@"%char); [exact T|contradiction].
Qed.

Lemma process_lines_tail (lines : list text) (st : State) :
  fold_left process_line lines (st, false) = (add_lines lines st, false).
Proof.
  revert st. induction lines as [|l lines IH]; intros st; [reflexivity|].
  cbn [fold_left process_line andb add_lines]. apply IH.
Qed.

Lemma ProcessConfigFile_lines (section_data : text) (st : State) :
  ProcessConfigFile section_data st
  = match getlines [] section_data with
    | [] => st
    | first :: rest =>
        if check_echo_off (trim first)
        then add_lines rest (with_echo_off true st)
        else add_lines (first :: rest) st
    end.
Proof.
  unfold ProcessConfigFile.
  destruct section_data as [|c r]; [reflexivity|]. cbn [empty].
  destruct (getlines [] (c :: r)) as [|first rest]; [reflexivity|].
  cbn [fold_left process_line andb].
  destruct (check_echo_off (trim first)); now rewrite process_lines_tail.
Qed.

(** C3: ProcessConfigFile trims every line and tests the first line only:
    the test succeeds exactly on an optional [@], "echo" in any letter case,
    at least one white-space character, "off" and nothing more; a first line
    that passes is not added and sets the echo-off flag, every other line is
    added to the [autoexec] lines.  The three inputs of the specification
    behave as it says. *)
Theorem first_line_echo_off :
  (forall line, check_echo_off line = true <-> echo_off_pattern line)
  /\ (forall section_data st,
         ProcessConfigFile section_data st
         = match getlines [] section_data with
           | [] => st
           | first :: rest =>
               if check_echo_off (trim first)
               then add_lines rest (with_echo_off true st)
               else add_lines (first :: rest) st
           end)
  /\ (let st := ProcessConfigFile (str ("@echo off" ++ nl ++ "DIR" ++ nl))
                                  initial_state in
      autoexec_has_echo_off st = true
      /\ autoexec_lines st = [(ConfigFileAutoexec, [str "DIR"])])
  /\ (let st := ProcessConfigFile (str ("echo offX" ++ nl ++ "DIR" ++ nl))
                                  initial_state in
      autoexec_has_echo_off st = false
      /\ autoexec_lines st
         = [(ConfigFileAutoexec, [str "echo offX"; str "DIR"])])
  /\ (let st := ProcessConfigFile (str ("DIR" ++ nl ++ "@echo off" ++ nl))
                                  initial_state in
      autoexec_has_echo_off st = false
      /\ autoexec_lines st
         = [(ConfigFileAutoexec, [str "DIR"; str "@echo off"])]).
Proof.
  split; [exact check_echo_off_pattern|].
  split; [exact ProcessConfigFile_lines|].
  repeat split; reflexivity.
Qed.

(** ** Variables *)

Lemma AUTOEXEC_SetVariable_accepted (C_DEBUG : bool) (name value : text)
      (st : State) :
  accepted C_DEBUG name value = true ->
  AUTOEXEC_SetVariable C_DEBUG name value st
  = Returns
      (with_variables
         (if empty value
          then map_erase text_compare (upcase name) (autoexec_variables st)
          else map_at text_compare (upcase name) [] (fun _ => value)
                      (autoexec_variables st))
         (SetEnv (c_str (upcase name)) (c_str value) (first_shell st))
         st).
Proof.
  unfold accepted, AUTOEXEC_SetVariable.
  destruct C_DEBUG; [|reflexivity]. cbn [negb orb andb].
  intros A. apply andb_prop in A. destruct A as [-> ->]. reflexivity.
Qed.


(** C4, as the code has it: SetVariable stores under the upper-cased name;
    a non-empty value inserts or overwrites that entry and leaves the
    others, an empty value removes it.  Hence SetVariable(name, v) with a
    non-empty v followed by SetVariable(name, "") leaves the mapping as it
    was before WITHOUT the entry of the upper-cased name: unchanged when
    the name had no entry, empty if it started empty. *)
Theorem set_then_clear (C_DEBUG : bool) (name value : text) (st : State) :
  map_ok text_compare (autoexec_variables st) ->
  accepted C_DEBUG name value = true ->
  value <> [] ->
  exists st1 st2,
    AUTOEXEC_SetVariable C_DEBUG name value st = Returns st1
    /\ AUTOEXEC_SetVariable C_DEBUG name [] st1 = Returns st2
    /\ variable (upcase name) st1 = Some value
    /\ (forall k, k <> upcase name -> variable k st1 = variable k st)
    /\ variable (upcase name) st2 = None
    /\ (forall k, k <> upcase name -> variable k st2 = variable k st)
    /\ autoexec_variables st2
       = map_erase text_compare (upcase name) (autoexec_variables st)
    /\ (variable (upcase name) st = None ->
        autoexec_variables st2 = autoexec_variables st)
    /\ (autoexec_variables st = [] -> autoexec_variables st2 = []).
Proof.
  intros H A N.
  assert (A2 : accepted C_DEBUG name [] = true).
  { unfold accepted in *. destruct C_DEBUG; [|reflexivity].
    cbn [negb orb] in *. apply andb_prop in A. destruct A as [-> _].
    reflexivity. }
  eexists. eexists.
  split; [exact (AUTOEXEC_SetVariable_accepted _ _ _ _ A)|].
  split; [exact (AUTOEXEC_SetVariable_accepted _ _ _ _ A2)|].
  destruct value as [|c value]; [contradiction|].
  unfold variable. cbn [empty autoexec_variables with_variables].
  rewrite !(erase_at _ _ _ text_compare_eq).
  split; [apply (find_at_same _ _ _ text_compare_eq)|].
  split.
  { intros k Hk.
    now apply (find_at_other _ _ _ text_compare_eq text_compare_trans). }
  split; [now apply (find_erase_same _ _ _ text_compare_eq)|].
  split.
  { intros k Hk.
    now apply (find_erase_other _ _ _ text_compare_eq text_compare_trans). }
  split; [reflexivity|].
  split; [apply erase_absent|].
  now intros ->.
Qed.

Lemma set_then_clear_witness :
  map_ok text_compare (autoexec_variables initial_state)
  /\ accepted true (str "path") (str "C:\X") = true
  /\ str "C:\X" <> []
  /\ exists st1 st2,
      AUTOEXEC_SetVariable true (str "path") (str "C:\X") initial_state
      = Returns st1
      /\ AUTOEXEC_SetVariable true (str "path") [] st1 = Returns st2
      /\ variable (upcase (str "path")) st1 = Some (str "C:\X")
      /\ (forall k, k <> upcase (str "path") ->
                    variable k st1 = variable k initial_state)
      /\ variable (upcase (str "path")) st2 = None
      /\ (forall k, k <> upcase (str "path") ->
                    variable k st2 = variable k initial_state)
      /\ autoexec_variables st2
         = map_erase text_compare (upcase (str "path"))
                     (autoexec_variables initial_state)
      /\ (variable (upcase (str "path")) initial_state = None ->
          autoexec_variables st2 = autoexec_variables initial_state)
      /\ (autoexec_variables initial_state = [] ->
          autoexec_variables st2 = []).
Proof.
  assert (O : map_ok text_compare (autoexec_variables initial_state))
    by constructor.
  assert (N : str "C:\X" <> []) by discriminate.
  split; [exact O|]. split; [reflexivity|]. split; [exact N|].
  exact (set_then_clear true (str "path") (str "C:\X") initial_state
           O eq_refl N).
Defined.

(** C4 as stated fails when the name already had an entry: setting and
    clearing "path" on a mapping that holds PATH loses the old entry. *)
Lemma set_then_clear_counterexample :
  let st0 := state_after
               (AUTOEXEC_SetVariable false (str "PATH") (str "C:\OLD")
                                     initial_state) initial_state in
  let st1 := state_after
               (AUTOEXEC_SetVariable false (str "path") (str "C:\X") st0)
               st0 in
  let st2 := state_after (AUTOEXEC_SetVariable false (str "path") [] st1)
                         st1 in
  autoexec_variables st0 = [(str "PATH", str "C:\OLD")]
  /\ autoexec_variables st2 = []
  /\ autoexec_variables st2 <> autoexec_variables st0.
Proof. repeat split. discriminate. Qed.

Lemma toupper_keeps_non_printable (c : ascii) :
  is_printable_ascii c = false -> toupper c = c.
Proof. destruct c as [[] [] [] [] [] [] [] []]; vm_compute; congruence. Qed.

Lemma c_str_without_nul (s : text) :
  ~ In zero s -> c_str s = s.
Proof.
  induction s as [|c s IH]; [reflexivity|]. cbn [c_str In]. intros N.
  destruct (ascii_dec c zero) as [->|]; [exfalso; auto|].
  rewrite IH; auto.
Qed.

(** C8, as the code has it: the debug build aborts with a diagnostic when
    the name, or else the value, has a character that is not printable
    ASCII, and otherwise does what the release build does; the release
    build never aborts: it stores the value unchanged under the upper-cased
    name (upper-casing leaves every non-printable character as it is) and
    hands the running shell the upper-cased name and the value as C
    strings, which end at their first NUL character and so are the whole
    strings only when these hold no NUL. *)
Theorem validation_only_in_debug (name value : text) (st : State) :
  (forallb is_printable_ascii name = false ->
   AUTOEXEC_SetVariable true name value st
   = E_Exit (str "AUTOEXEC: Variable name is not a printable ASCII"))
  /\ (forallb is_printable_ascii name = true ->
      forallb is_printable_ascii value = false ->
      AUTOEXEC_SetVariable true name value st
      = E_Exit (str "AUTOEXEC: Variable value is not a printable ASCII"))
  /\ (forallb is_printable_ascii name = true ->
      forallb is_printable_ascii value = true ->
      AUTOEXEC_SetVariable true name value st
      = AUTOEXEC_SetVariable false name value st)
  /\ (exists st',
         AUTOEXEC_SetVariable false name value st = Returns st'
         /\ (value <> [] -> variable (upcase name) st' = Some value)
         /\ first_shell st'
            = SetEnv (c_str (upcase name)) (c_str value) (first_shell st)
         /\ (~ In zero name -> ~ In zero value ->
             first_shell st'
             = SetEnv (upcase name) value (first_shell st)))
  /\ (forall c, is_printable_ascii c = false -> toupper c = c).
Proof.
  split; [|split; [|split; [|split]]].
  - intros N. unfold AUTOEXEC_SetVariable. now rewrite N.
  - intros N V. unfold AUTOEXEC_SetVariable. now rewrite N, V.
  - intros N V. unfold AUTOEXEC_SetVariable. now rewrite N, V.
  - eexists.
    split; [exact (AUTOEXEC_SetVariable_accepted false _ _ _ eq_refl)|].
    unfold variable. cbn [autoexec_variables first_shell with_variables].
    split; [|split].
    + intros N. destruct value as [|c value]; [contradiction|]. cbn [empty].
      apply (find_at_same _ _ _ text_compare_eq).
    + reflexivity.
    + intros Zn Zv. rewrite !c_str_without_nul; auto.
      unfold upcase. rewrite in_map_iff. intros (c & T & I).
      destruct (is_printable_ascii c) eqn:P.
      * apply Zn. replace zero with c; [exact I|].
        revert T P. clear.
        destruct c as [[] [] [] [] [] [] [] []]; vm_compute; congruence.
      * rewrite (toupper_keeps_non_printable _ P) in T. subst c. auto.
  - exact toupper_keeps_non_printable.
Qed.

(** C8 as stated fails: in the release build a value with a NUL character
    is accepted and stored whole, but the running shell is handed only what
    precedes the NUL; and the name is stored upper-cased, not as given. *)
Lemma propagated_unchanged_counterexample :
  let name := str "x" in
  let value := ["A"%char; zero; "B"%char] in
  let st := shell_running initial_state in
  let st' := state_after (AUTOEXEC_SetVariable false name value st) st in
  forallb is_printable_ascii value = false
  /\ AUTOEXEC_SetVariable false name value st = Returns st'
  /\ first_shell st' = Some [(str "X", str "A")]
  /\ first_shell st' <> Some [(name, value)]
  /\ first_shell st' <> Some [(upcase name, value)]
  /\ variable name st' = None.
Proof. repeat split; discriminate. Qed.

(** ** The published file *)

(** C5: AUTOEXEC_NotifyNewCodePage changes nothing (no call to the UTF-8
    engine, none to the virtual file system, the same cached code page)
    when the file was never registered or the active code page is the
    cached one. *)
Theorem notify_no_op (utf8_to_dos : text -> N -> text)
        (shutdown_requested : bool) (code_page : N) (st : State) :
  is_vfile_registered st = false \/ code_page = vfile_code_page st ->
  AUTOEXEC_NotifyNewCodePage utf8_to_dos shutdown_requested code_page st = st.
Proof.
  unfold AUTOEXEC_NotifyNewCodePage. intros [R | ->].
  - rewrite R. now rewrite orb_true_r.
  - destruct (shutdown_requested || _); [reflexivity|].
    now rewrite N.eqb_refl.
Qed.

Lemma notify_no_op_witness :
  let st := AUTOEXEC_RegisterFile stub_utf8_to_dos default_messages 437
                                  initial_state in
  (is_vfile_registered initial_state = false
   \/ 850%N = vfile_code_page initial_state)
  /\ AUTOEXEC_NotifyNewCodePage stub_utf8_to_dos false 850 initial_state
     = initial_state
  /\ (is_vfile_registered st = false \/ 437%N = vfile_code_page st)
  /\ AUTOEXEC_NotifyNewCodePage stub_utf8_to_dos false 437 st = st.
Proof.
  intros st.
  split; [left; reflexivity|].
  split; [exact (notify_no_op stub_utf8_to_dos false 850 initial_state
                   (or_introl eq_refl))|].
  split; [right; reflexivity|].
  exact (notify_no_op stub_utf8_to_dos false 437 st (or_intror eq_refl)).
Defined.

(** C6, as the code has it: outside shutdown, a notification after the file
    was registered, with an active code page other than the cached one,
    calls the UTF-8 engine on the stored [autoexec_bat_utf8] (whatever the
    lines, variables and flag now are), updates the virtual file with the
    result and caches the new code page; the stored text and the data that
    generation reads stay as they were.  During shutdown the notification
    does nothing, whatever the code page and the state. *)
Theorem notify_transcodes_stored_text (utf8_to_dos : text -> N -> text)
        (code_page : N) (st : State) :
  (is_vfile_registered st = true ->
   code_page <> vfile_code_page st ->
   let st' := AUTOEXEC_NotifyNewCodePage utf8_to_dos false code_page st in
   published st' = Some (utf8_to_dos (autoexec_bat_utf8 st) code_page)
   /\ vfile_calls st'
      = VFILE_Update autoexec_file_name
                     (utf8_to_dos (autoexec_bat_utf8 st) code_page)
          :: vfile_calls st
   /\ utf8_to_dos_calls st'
      = (autoexec_bat_utf8 st, code_page) :: utf8_to_dos_calls st
   /\ vfile_code_page st' = code_page
   /\ is_vfile_registered st' = true
   /\ autoexec_bat_utf8 st' = autoexec_bat_utf8 st
   /\ autoexec_has_echo_off st' = autoexec_has_echo_off st
   /\ autoexec_variables st' = autoexec_variables st
   /\ autoexec_lines st' = autoexec_lines st)
  /\ AUTOEXEC_NotifyNewCodePage utf8_to_dos true code_page st = st.
Proof.
  split.
  - intros R D st'. subst st'. unfold AUTOEXEC_NotifyNewCodePage.
    rewrite R. cbn [negb orb].
    apply N.eqb_neq in D. rewrite D.
    unfold create_autoexec_bat_dos, published. rewrite R. cbn.
    repeat split.
  - unfold AUTOEXEC_NotifyNewCodePage. cbn [orb]. reflexivity.
Qed.

Lemma notify_transcodes_stored_text_witness :
  let st := AddCommandBefore (str "MOUNT C")
              (AUTOEXEC_RegisterFile stub_utf8_to_dos default_messages 437
                 (with_echo_off true initial_state)) in
  is_vfile_registered st = true
  /\ 850%N <> vfile_code_page st
  /\ published (AUTOEXEC_NotifyNewCodePage stub_utf8_to_dos false 850 st)
     = Some (stub_utf8_to_dos (autoexec_bat_utf8 st) 850)
  /\ stub_utf8_to_dos (autoexec_bat_utf8 st) 850
     <> stub_utf8_to_dos (create_autoexec_bat_utf8 default_messages st) 850
  /\ AUTOEXEC_NotifyNewCodePage stub_utf8_to_dos true 850 st = st.
Proof.
  intros st.
  assert (D : 850%N <> vfile_code_page st) by discriminate.
  split; [reflexivity|]. split; [exact D|].
  split;
    [exact (proj1 (proj1 (notify_transcodes_stored_text
                            stub_utf8_to_dos 850 st) eq_refl D))|].
  split; [discriminate|].
  exact (proj2 (notify_transcodes_stored_text stub_utf8_to_dos 850 st)).
Defined.

(** C6 as stated fails during shutdown: the notification then returns at
    once, nothing is republished and the cached code page stays. *)
Lemma notify_during_shutdown_counterexample :
  let st := AUTOEXEC_RegisterFile stub_utf8_to_dos default_messages 437
                                  initial_state in
  let st' := AUTOEXEC_NotifyNewCodePage stub_utf8_to_dos true 850 st in
  is_vfile_registered st = true
  /\ 850%N <> vfile_code_page st
  /\ vfile_code_page st' <> 850%N
  /\ utf8_to_dos_calls st' = utf8_to_dos_calls st
  /\ vfile_calls st' = vfile_calls st.
Proof. repeat split; discriminate. Qed.

(** ** The order of the variables *)

Lemma assign_ok (k v : text) (m : std_map text text) :
  map_ok text_compare m -> map_ok text_compare (assign k v m).
Proof.
  intros H. unfold assign. destruct (empty v).
  - now apply ok_erase.
  - now apply (ok_at _ _ _ text_compare_antisym text_compare_trans).
Qed.

Lemma find_assign (k k' v : text) (m : std_map text text) :
  map_ok text_compare m ->
  map_find text_compare k (assign k' v m)
  = if text_eq_dec k k'
    then (if empty v then None else Some v)
    else map_find text_compare k m.
Proof.
  intros H. unfold assign.
  destruct (text_eq_dec k k') as [->|D], (empty v).
  - now apply (find_erase_same _ _ _ text_compare_eq).
  - apply (find_at_same _ _ _ text_compare_eq).
  - now apply (find_erase_other _ _ _ text_compare_eq text_compare_trans).
  - now apply (find_at_other _ _ _ text_compare_eq text_compare_trans).
Qed.

Lemma assign_commute (k1 v1 k2 v2 : text) (m : std_map text text) :
  map_ok text_compare m -> k1 <> k2 ->
  assign k2 v2 (assign k1 v1 m) = assign k1 v1 (assign k2 v2 m).
Proof.
  intros H D.
  apply (map_ext _ _ _ text_compare_eq text_compare_antisym
                 text_compare_trans);
    try (now repeat apply assign_ok).
  intros k. rewrite !find_assign by (now repeat apply assign_ok).
  destruct (text_eq_dec k k2) as [E2|], (text_eq_dec k k1) as [E1|];
    try reflexivity.
  congruence.
Qed.

Lemma assign_keys (P : text -> Prop) (k v : text) (m : std_map text text) :
  P k -> Forall P (keys m) -> Forall P (keys (assign k v m)).
Proof.
  intros Hk H. unfold assign. destruct (empty v).
  - now apply keys_erase.
  - now apply keys_at.
Qed.

Lemma create_autoexec_bat_utf8_ext (MSG_Get : text -> text) (a b : State) :
  autoexec_has_echo_off a = autoexec_has_echo_off b ->
  autoexec_variables a = autoexec_variables b ->
  autoexec_lines a = autoexec_lines b ->
  create_autoexec_bat_utf8 MSG_Get a = create_autoexec_bat_utf8 MSG_Get b.
Proof.
  intros E V L. unfold create_autoexec_bat_utf8. now rewrite E, V, L.
Qed.

Lemma set_variables_accepted (C_DEBUG : bool) (calls : list (text * text))
      (st : State) :
  Forall (fun c => accepted C_DEBUG (fst c) (snd c) = true) calls ->
  exists st',
    set_variables C_DEBUG calls st = Returns st'
    /\ autoexec_variables st'
       = fold_left (fun m c => assign (upcase (fst c)) (snd c) m) calls
                   (autoexec_variables st)
    /\ autoexec_has_echo_off st' = autoexec_has_echo_off st
    /\ autoexec_lines st' = autoexec_lines st.
Proof.
  intros A. revert st.
  induction A as [|[n v] calls A _ IH]; intros st.
  - exists st. repeat split.
  - cbn [set_variables fst snd] in *.
    rewrite (AUTOEXEC_SetVariable_accepted _ _ _ _ A). cbn [and_then].
    destruct (IH (with_variables
                    (assign (upcase n) v (autoexec_variables st))
                    (SetEnv (c_str (upcase n)) (c_str v) (first_shell st))
                    st)) as (st' & R & V & E & L).
    exists st'. split; [exact R|]. split; [exact V|]. split; assumption.
Qed.

Lemma assign_all_ok (calls : list (text * text)) (m : std_map text text) :
  map_ok text_compare m ->
  map_ok text_compare
    (fold_left (fun m c => assign (upcase (fst c)) (snd c) m) calls m).
Proof.
  revert m. induction calls as [|c calls IH]; intros m H; [exact H|].
  cbn [fold_left]. apply IH. now apply assign_ok.
Qed.

Lemma assign_all_keys (calls : list (text * text)) (m : std_map text text) :
  Forall (fun k => In k (keys m)
                   \/ In k (map (fun c => upcase (fst c)) calls))
         (keys (fold_left (fun m c => assign (upcase (fst c)) (snd c) m)
                          calls m)).
Proof.
  revert m. induction calls as [|c calls IH]; intros m.
  - cbn. apply Forall_forall. auto.
  - cbn [fold_left]. specialize (IH (assign (upcase (fst c)) (snd c) m)).
    eapply Forall_impl; [|exact IH]. cbn beta. intros k [I | I].
    + assert (F : Forall (fun k => In k (keys m) \/ k = upcase (fst c))
                         (keys (assign (upcase (fst c)) (snd c) m))).
      { apply assign_keys; [now right|]. apply Forall_forall. auto. }
      rewrite Forall_forall in F. destruct (F k I) as [? | ->].
      * now left.
      * right. now left.
    + right. now right.
Qed.

Lemma assign_all_permutation (a b : list (text * text)) :
  Permutation a b ->
  NoDup (stored_names a) ->
  forall m, map_ok text_compare m ->
  fold_left (fun m c => assign (upcase (fst c)) (snd c) m) a m
  = fold_left (fun m c => assign (upcase (fst c)) (snd c) m) b m.
Proof.
  induction 1 as [|x a b P IH|x y a|a b c P1 IH1 P2 IH2]; intros D m H.
  - reflexivity.
  - cbn [fold_left]. inversion D; subst. apply IH; auto.
    now apply assign_ok.
  - cbn [fold_left]. f_equal. apply assign_commute; [exact H|].
    cbn in D. inversion D as [|? ? N _]; subst. cbn in N. intros E. apply N.
    left. exact (eq_sym E).
  - rewrite IH1, IH2; auto.
    eapply Permutation_NoDup; [|exact D].
    unfold stored_names. now apply Permutation_map.
Qed.

(** C10, as the code has it: after any sequence of SetVariable calls the
    mapping holds upper-cased names in strictly ascending order, and the
    [@SET] lines of the generated text follow that order; calls whose names
    are distinct AFTER UPPER-CASING commute: in any order they give the
    same mapping and the same generated text. *)
Theorem variables_in_name_order (C_DEBUG : bool) (MSG_Get : text -> text)
        (st : State) (calls order1 order2 : list (text * text)) :
  map_ok text_compare (autoexec_variables st) ->
  all_accepted C_DEBUG calls ->
  all_accepted C_DEBUG order1 ->
  Permutation order1 order2 ->
  NoDup (stored_names order1) ->
  (exists st',
      set_variables C_DEBUG calls st = Returns st'
      /\ StronglySorted text_lt (keys (autoexec_variables st'))
      /\ Forall (fun k => In k (keys (autoexec_variables st))
                          \/ In k (stored_names calls))
                (keys (autoexec_variables st'))
      /\ (autoexec_variables st' <> [] ->
          create_autoexec_bat_utf8 MSG_Get st'
          = emit ([comment_generated MSG_Get]
                    ++ (if autoexec_has_echo_off st'
                        then [[]; str "@ECHO OFF"] else [])
                    ++ [[]]
                    ++ map set_line (autoexec_variables st')
                    ++ [[]]
                    ++ body_lines MSG_Get false true false
                                  (autoexec_lines st'))))
  /\ (exists st1 st2,
         set_variables C_DEBUG order1 st = Returns st1
         /\ set_variables C_DEBUG order2 st = Returns st2
         /\ autoexec_variables st1 = autoexec_variables st2
         /\ create_autoexec_bat_utf8 MSG_Get st1
            = create_autoexec_bat_utf8 MSG_Get st2).
Proof.
  intros H A A1 P D. split.
  - destruct (set_variables_accepted C_DEBUG calls st A)
      as (st' & R & V & E & L).
    exists st'. split; [exact R|]. rewrite V.
    split; [now apply assign_all_ok|]. split; [apply assign_all_keys|].
    rewrite <- V. intros N. rewrite create_autoexec_bat_utf8_lines.
    destruct (autoexec_variables st') as [|nv r]; [contradiction|].
    rewrite orb_true_r. unfold preamble_lines. rewrite orb_true_r.
    cbn [empty negb]. rewrite <- !app_assoc. reflexivity.
  - assert (A2 : all_accepted C_DEBUG order2).
    { unfold all_accepted in *. rewrite Forall_forall in *.
      intros c I. apply A1. eapply Permutation_in; [|exact I].
      now apply Permutation_sym. }
    destruct (set_variables_accepted C_DEBUG order1 st A1)
      as (st1 & R1 & V1 & E1 & L1).
    destruct (set_variables_accepted C_DEBUG order2 st A2)
      as (st2 & R2 & V2 & E2 & L2).
    exists st1, st2. split; [exact R1|]. split; [exact R2|].
    assert (V : autoexec_variables st1 = autoexec_variables st2).
    { rewrite V1, V2. now apply assign_all_permutation. }
    split; [exact V|].
    apply create_autoexec_bat_utf8_ext; congruence.
Qed.

Lemma variables_in_name_order_witness :
  let calls := [(str "path", str "C:\X"); (str "Blaster", str "A220");
                (str "PATH", str "Z:\"); (str "comspec", str "Z:\C")] in
  let order1 := [(str "temp", str "C:\T"); (str "Blaster", str "A220")] in
  let order2 := [(str "Blaster", str "A220"); (str "temp", str "C:\T")] in
  map_ok text_compare (autoexec_variables initial_state)
  /\ all_accepted true calls
  /\ all_accepted true order1
  /\ Permutation order1 order2
  /\ NoDup (stored_names order1)
  /\ (exists st',
         set_variables true calls initial_state = Returns st'
         /\ StronglySorted text_lt (keys (autoexec_variables st'))
         /\ Forall (fun k => In k (keys (autoexec_variables initial_state))
                             \/ In k (stored_names calls))
                   (keys (autoexec_variables st'))
         /\ (autoexec_variables st' <> [] ->
             create_autoexec_bat_utf8 default_messages st'
             = emit ([comment_generated default_messages]
                       ++ (if autoexec_has_echo_off st'
                           then [[]; str "@ECHO OFF"] else [])
                       ++ [[]]
                       ++ map set_line (autoexec_variables st')
                       ++ [[]]
                       ++ body_lines default_messages false true false
                                     (autoexec_lines st'))))
  /\ (exists st1 st2,
         set_variables true order1 initial_state = Returns st1
         /\ set_variables true order2 initial_state = Returns st2
         /\ autoexec_variables st1 = autoexec_variables st2
         /\ create_autoexec_bat_utf8 default_messages st1
            = create_autoexec_bat_utf8 default_messages st2).
Proof.
  intros calls order1 order2.
  assert (O : map_ok text_compare (autoexec_variables initial_state))
    by constructor.
  assert (A : all_accepted true calls) by (repeat constructor).
  assert (A1 : all_accepted true order1) by (repeat constructor).
  assert (P : Permutation order1 order2) by apply perm_swap.
  assert (D : NoDup (stored_names order1)).
  { repeat constructor; cbn; intuition discriminate. }
  split; [exact O|]. split; [exact A|]. split; [exact A1|].
  split; [exact P|]. split; [exact D|].
  exact (variables_in_name_order true default_messages initial_state
           calls order1 order2 O A A1 P D).
Defined.

(** C10 as stated fails for names that differ only in letter case: they
    are distinct names, yet the two orders of the calls leave different
    mappings and different generated texts. *)
Lemma distinct_names_counterexample :
  let first := (str "a", str "1") in
  let second := (str "A", str "2") in
  let st12 := state_after (set_variables false [first; second] initial_state)
                          initial_state in
  let st21 := state_after (set_variables false [second; first] initial_state)
                          initial_state in
  fst first <> fst second
  /\ set_variables false [first; second] initial_state = Returns st12
  /\ set_variables false [second; first] initial_state = Returns st21
  /\ autoexec_variables st12 = [(str "A", str "2")]
  /\ autoexec_variables st21 = [(str "A", str "1")]
  /\ autoexec_variables st12 <> autoexec_variables st21
  /\ create_autoexec_bat_utf8 default_messages st12
     <> create_autoexec_bat_utf8 default_messages st21.
Proof. repeat split; discriminate. Qed.

(** * Further properties of the code *)

(** ** The constructor as a sequence of insertions *)

Lemma insert_with_echo_off (b : bool) (st : State) (c : Insertion) :
  insert (with_echo_off b st) c = with_echo_off b (insert st c).
Proof. destruct c; reflexivity. Qed.

Lemma insertions_with_echo_off (b : bool) (calls : list Insertion)
      (st : State) :
  fold_left insert calls (with_echo_off b st)
  = with_echo_off b (fold_left insert calls st).
Proof.
  revert st. induction calls as [|c calls IH]; intros st; [reflexivity|].
  cbn [fold_left]. now rewrite insert_with_echo_off, IH.
Qed.

Lemma add_lines_inserts (lines : list text) (st : State) :
  add_lines lines st = fold_left insert (map User (map trim lines)) st.
Proof.
  revert st. induction lines as [|l lines IH]; intros st; [reflexivity|].
  cbn [add_lines map fold_left]. apply IH.
Qed.

Lemma ProcessConfigFile_inserts (section_data : text) (st : State) :
  ProcessConfigFile section_data st
  = fold_left insert (map User (config_lines section_data))
              (if config_echo_off section_data
               then with_echo_off true st else st).
Proof.
  rewrite ProcessConfigFile_lines. unfold config_lines, config_echo_off.
  destruct (getlines [] section_data) as [|first rest]; [reflexivity|].
  cbn [map]. destruct (check_echo_off (trim first));
    now rewrite add_lines_inserts.
Qed.

Lemma AutoMountDrive_inserts (h : Host) (dir_letter : text) (st : State) :
  exists lines,
    AutoMountDrive h dir_letter st = fold_left insert (map Before lines) st.
Proof.
  unfold AutoMountDrive.
  destruct (path_exists h _); cbn [negb]; [|now exists []].
  destruct (parse_drive_conf h _ _) as [[drive_letter mount_args] path_val].
  destruct (negb (length path_val =? 0)).
  - eexists [_; _]. reflexivity.
  - eexists [_]. reflexivity.
Qed.

Lemma automount_inserts (h : Host) (letters : list ascii) (st : State) :
  exists lines,
    fold_left (fun st letter => AutoMountDrive h [letter] st) letters st
    = fold_left insert (map Before lines) st.
Proof.
  revert st. induction letters as [|l letters IH]; intros st.
  - now exists [].
  - cbn [fold_left].
    destruct (AutoMountDrive_inserts h [l] st) as [a ->].
    destruct (IH (fold_left insert (map Before a) st)) as [b ->].
    exists (a ++ b). now rewrite map_app, fold_left_app.
Qed.

Lemma add_c_arguments_inserts (h : Host) (arguments : list text)
      (exit_call : bool) (st : State) :
  add_c_arguments h arguments exit_call st
  = (fold_left insert
       (map Before (filter (fun a => negb (is_exit_call a))
                           (map (replace_quotes h) arguments))) st,
     exit_call || exit_call_exists h arguments).
Proof.
  revert exit_call st. unfold exit_call_exists.
  induction arguments as [|a arguments IH]; intros exit_call st.
  - cbn. now rewrite orb_false_r.
  - cbn [add_c_arguments map filter existsb].
    destruct (is_exit_call (replace_quotes h a)); cbn [negb].
    + rewrite IH. now rewrite orb_true_r.
    + rewrite IH. reflexivity.
Qed.

Lemma launch_inserts (h : Host) (secure : bool) (argument : text)
      (rest : list text) (cdrom_images : text) (st : State) :
  is_cd_image h argument = false ->
  find_dir_or_command h secure (argument :: rest) cdrom_images st
  = (fold_left insert
       (map Before (launch_lines h secure argument cdrom_images)) st,
     true, cdrom_images).
Proof.
  unfold is_cd_image, launch_lines. cbn [find_dir_or_command].
  unfold maybe_add_command_mount_d_cdrom, maybe_add_command_secure,
    add_command_mount_c_directory.
  destruct (is_directory h argument
            || is_directory h (in_current_path h argument));
    [|destruct (ends_with (upcase argument) (str ".BAT"));
      [|destruct (ends_with (upcase argument) (str ".IMG")
                  || ends_with (upcase argument) (str ".IMA"));
        [|destruct (ends_with (upcase argument) (str ".ISO")
                    || ends_with (upcase argument) (str ".CUE"));
          [discriminate|]]]];
    intros _; destruct (empty cdrom_images), secure; cbn [negb];
    rewrite ?app_assoc; reflexivity.
Qed.

Lemma cd_image_skipped (h : Host) (secure : bool) (argument : text)
      (rest : list text) (cdrom_images : text) (st : State) :
  is_cd_image h argument = true ->
  find_dir_or_command h secure (argument :: rest) cdrom_images st
  = find_dir_or_command h secure rest
      ((if empty cdrom_images then [] else cdrom_images ++ str " ")
         ++ (quote ++ argument) ++ quote) st.
Proof.
  unfold is_cd_image. cbn [find_dir_or_command].
  destruct (is_directory h argument
            || is_directory h (in_current_path h argument));
    [discriminate|].
  destruct (ends_with (upcase argument) (str ".BAT")); [discriminate|].
  destruct (ends_with (upcase argument) (str ".IMG")
            || ends_with (upcase argument) (str ".IMA")); [discriminate|].
  destruct (ends_with (upcase argument) (str ".ISO")
            || ends_with (upcase argument) (str ".CUE")); [|discriminate].
  intros _. now destruct cdrom_images.
Qed.

Lemma join_images_snoc (images : list text) (image : text) :
  join_images (images ++ [image])
  = (if empty (join_images images) then []
     else join_images images ++ str " ") ++ (quote ++ image) ++ quote.
Proof.
  induction images as [|i images IH]; [reflexivity|].
  destruct images as [|j images].
  - cbn [app join_images]. unfold quote. cbn [app empty].
    rewrite <- !app_assoc. reflexivity.
  - change (join_images ((i :: j :: images) ++ [image]))
      with (((quote ++ i) ++ quote) ++ str " "
              ++ join_images ((j :: images) ++ [image])).
    rewrite IH.
    change (join_images (i :: j :: images))
      with (((quote ++ i) ++ quote) ++ str " " ++ join_images (j :: images)).
    destruct (join_images (j :: images)) eqn:J.
    + destruct images; discriminate J.
    + unfold quote. cbn [app empty].
      rewrite <- !app_assoc. cbn [app]. reflexivity.
Qed.

Lemma cd_images_skipped (h : Host) (secure : bool) (images rest : list text)
      (seen : list text) (st : State) :
  Forall (fun a => is_cd_image h a = true) images ->
  find_dir_or_command h secure (images ++ rest) (join_images seen) st
  = find_dir_or_command h secure rest (join_images (seen ++ images)) st.
Proof.
  intros F. revert seen. induction F as [|a images A _ IH]; intros seen.
  - now rewrite app_nil_r.
  - cbn [app]. rewrite (cd_image_skipped _ _ _ _ _ _ A).
    rewrite <- join_images_snoc, IH, <- app_assoc. reflexivity.
Qed.

Lemma found_after_images (h : Host) (images : list text) (rest : list text) :
  Forall (fun a => is_cd_image h a = true) images ->
  found_dir_or_command h (images ++ rest) = found_dir_or_command h rest.
Proof.
  unfold found_dir_or_command. induction 1 as [|a images A _ IH];
    [reflexivity|].
  cbn [app existsb]. now rewrite A, IH.
Qed.

(** The positional loop in full: the state gains lines before the
    [autoexec] section only; whether something was found and the images
    collected depend on the arguments alone. *)
Lemma find_dir_or_command_inserts (h : Host) (secure : bool)
      (arguments : list text) (cdrom_images : text) (st : State) :
  exists lines images,
    find_dir_or_command h secure arguments cdrom_images st
    = (fold_left insert (map Before lines) st,
       found_dir_or_command h arguments, images)
    /\ (found_dir_or_command h arguments = false ->
        lines = []
        /\ forall st', find_dir_or_command h secure arguments cdrom_images st'
                       = (st', false, images)).
Proof.
  revert cdrom_images. induction arguments as [|a arguments IH];
    intros cdrom_images.
  - exists [], cdrom_images. split; [reflexivity|]. intros _. now split.
  - destruct (is_cd_image h a) eqn:A.
    + rewrite (cd_image_skipped _ _ _ _ _ _ A).
      destruct (IH ((if empty cdrom_images then [] else cdrom_images ++ str " ")
                      ++ (quote ++ a) ++ quote)) as (lines & images & E & N).
      exists lines, images. unfold found_dir_or_command in *.
      cbn [existsb]. rewrite A. cbn [negb orb]. split; [exact E|].
      intros F. destruct (N F) as [L R]. split; [exact L|].
      intros st'. rewrite (cd_image_skipped _ _ _ _ _ _ A). apply R.
    + rewrite (launch_inserts _ _ _ _ _ _ A).
      exists (launch_lines h secure a cdrom_images), cdrom_images.
      unfold found_dir_or_command. cbn [existsb]. rewrite A.
      split; [reflexivity|discriminate].
Qed.

Lemma used_section_inserts (h : Host) (s : Startup) (st : State) :
  (if negb (noautoexec s)
   then if (if text_eq_dec (autoexec_section s) (str "join")
            then true else false)
        then ProcessConfigFile (configuration_data s) st
        else if found_dir_or_command h (commands s) then st
             else ProcessConfigFile (overwritten_autoexec_data s) st
   else st)
  = fold_left insert (map User (user_lines h s))
              (if startup_echo_off h s then with_echo_off true st else st).
Proof.
  unfold user_lines, startup_echo_off, used_section.
  destruct (noautoexec s); cbn [negb]; [reflexivity|].
  destruct (text_eq_dec (autoexec_section s) (str "join")).
  - apply ProcessConfigFile_inserts.
  - destruct (found_dir_or_command h (commands s)); [reflexivity|].
    apply ProcessConfigFile_inserts.
Qed.

(** The composer's part of the constructor is a sequence of insertions:
    lines before the section, the lines of the configuration, more lines
    before, and the lines after; the echo-off flag is set if the
    configuration says so. *)
Lemma compose_autoexec_inserts (h : Host) (s : Startup) (st : State) :
  exists before1 before2,
    compose_autoexec h s st
    = fold_left insert
        (map Before before1 ++ map User (user_lines h s)
           ++ map Before before2 ++ map After (after_lines h s))
        (if startup_echo_off h s then with_echo_off true st else st).
Proof.
  unfold compose_autoexec.
  assert (A : exists a,
             (if automount s
              then fold_left (fun st letter => AutoMountDrive h [letter] st)
                             drive_letters st
              else st) = fold_left insert (map Before a) st).
  { destruct (automount s); [apply automount_inserts|now exists []]. }
  destruct A as [a ->].
  rewrite add_c_arguments_inserts. cbn [orb].
  set (c := filter (fun a => negb (is_exit_call a))
                   (map (replace_quotes h) (c_arguments s))).
  destruct (find_dir_or_command_inserts h (securemode s) (commands s) []
              (fold_left insert (map Before c)
                         (fold_left insert (map Before a) st)))
    as (l & images & -> & _).
  rewrite used_section_inserts.
  fold (should_add_exit h s).
  set (st3 := fold_left insert (map Before l) _).
  assert (E3 : st3 = fold_left insert (map Before ((a ++ c) ++ l)) st).
  { subst st3. now rewrite !map_app, !fold_left_app. }
  set (b2 := if negb (found_dir_or_command h (commands s)) && negb (empty images)
             then [(str "@Z:\IMGMOUNT.COM D " ++ images) ++ str " -t iso"]
             else []).
  exists ((a ++ c) ++ l), b2.
  rewrite !fold_left_app.
  assert (E4 : fold_left insert (map User (user_lines h s))
                 (if startup_echo_off h s then with_echo_off true st3 else st3)
               = fold_left insert (map User (user_lines h s))
                   (fold_left insert (map Before ((a ++ c) ++ l))
                      (if startup_echo_off h s
                       then with_echo_off true st else st))).
  { rewrite E3. destruct (startup_echo_off h s); [|reflexivity].
    now rewrite !insertions_with_echo_off. }
  rewrite E4. clear E4 E3. clearbody st3.
  set (st4 := fold_left insert (map User (user_lines h s)) _).
  unfold after_lines, maybe_add_command_secure,
    maybe_add_command_mount_d_cdrom. subst b2.
  destruct (found_dir_or_command h (commands s)), (empty images),
    (securemode s), (should_add_exit h s); reflexivity.
Qed.

(** ** What every reachable state satisfies *)

Lemma insertions_publication (calls : list Insertion) (st : State) :
  same_publication (fold_left insert calls st) st
  /\ first_shell (fold_left insert calls st) = first_shell st.
Proof.
  revert st. induction calls as [|c calls IH]; intros st.
  - repeat split.
  - cbn [fold_left]. destruct (IH (insert st c)) as [(A & B & C & D & E) F].
    unfold same_publication. rewrite A, B, C, D, E, F.
    destruct c; repeat split.
Qed.

Lemma upcase_idempotent (s : text) : upcase (upcase s) = upcase s.
Proof.
  unfold upcase. rewrite map_map. apply List.map_ext. intros c.
  destruct c as [[] [] [] [] [] [] [] []]; reflexivity.
Qed.

Lemma assign_entries (k v : text) (m : std_map text text) :
  Forall (fun nv => upcase (fst nv) = fst nv /\ snd nv <> []) m ->
  Forall (fun nv => upcase (fst nv) = fst nv /\ snd nv <> [])
         (assign (upcase k) v m).
Proof.
  unfold assign. destruct v as [|c v]; cbn [empty].
  - induction 1 as [|[k1 v1] r H1 Hr IH]; cbn [map_erase]; [constructor|].
    destruct (text_compare (upcase k) k1).
    + exact Hr.
    + now constructor.
    + now constructor.
  - induction 1 as [|[k1 v1] r H1 Hr IH]; cbn [map_at].
    + constructor; [|constructor]. cbn. split.
      * apply upcase_idempotent.
      * discriminate.
    + destruct (text_compare (upcase k) k1).
      * constructor; [|exact Hr]. cbn in *. split; [tauto|discriminate].
      * constructor; [|constructor; assumption]. cbn. split.
        -- apply upcase_idempotent.
        -- discriminate.
      * constructor; assumption.
Qed.

Lemma invariant_composer (utf8_to_dos : text -> N -> text) (st st' : State) :
  invariant utf8_to_dos st ->
  same_publication st' st ->
  variables_ok st' ->
  map_ok Location_compare (autoexec_lines st') ->
  invariant utf8_to_dos st'.
Proof.
  intros (_ & _ & (L & R) & P) (A & B & C & D & E) V M.
  unfold invariant, registration_ok, publication_ok, published in *.
  rewrite A, B, C, D, E.
  split; [exact V|]. split; [exact M|]. split; [split; assumption|exact P].
Qed.

Lemma invariant_publish (utf8_to_dos : text -> N -> text) (code_page : N)
      (st : State) :
  variables_ok st ->
  map_ok Location_compare (autoexec_lines st) ->
  registration_ok st ->
  invariant utf8_to_dos
    (create_autoexec_bat_dos utf8_to_dos (autoexec_bat_utf8 st) code_page st).
Proof.
  intros V M (L & R).
  unfold invariant, variables_ok, registration_ok, publication_ok, published,
    create_autoexec_bat_dos in *.
  cbn [autoexec_variables autoexec_lines utf8_to_dos_calls vfile_calls
       is_vfile_registered autoexec_bat_utf8 vfile_code_page length].
  split; [exact V|]. split; [exact M|]. split; [split|].
  - now rewrite L.
  - destruct (is_vfile_registered st).
    + destruct R as (updates & data & -> & U).
      exists (VFILE_Update autoexec_file_name
                (utf8_to_dos (autoexec_bat_utf8 st) code_page) :: updates),
        data.
      split; [reflexivity|]. constructor; [|exact U]. now eexists.
    + rewrite R. exists [], (utf8_to_dos (autoexec_bat_utf8 st) code_page).
      split; [reflexivity|constructor].
  - now destruct (is_vfile_registered st).
Qed.

Lemma invariant_insertions (utf8_to_dos : text -> N -> text)
      (calls : list Insertion) (echo_off : bool) (st : State) :
  invariant utf8_to_dos st ->
  invariant utf8_to_dos
    (fold_left insert calls (if echo_off then with_echo_off true st else st)).
Proof.
  intros I.
  assert (I' : invariant utf8_to_dos
                 (if echo_off then with_echo_off true st else st)).
  { destruct echo_off; [|exact I].
    destruct I as (V0 & M0 & R0 & P0).
    apply (invariant_composer _ st).
    - exact (conj V0 (conj M0 (conj R0 P0))).
    - repeat split.
    - exact V0.
    - exact M0. }
  set (st0 := if echo_off then with_echo_off true st else st) in *.
  destruct (insertions_frame calls st0) as (_ & V & O & _).
  destruct (insertions_publication calls st0) as [S _].
  apply (invariant_composer _ st0); auto.
  - unfold variables_ok. rewrite V. apply I'.
  - apply O, I'.
Qed.

Lemma invariant_register (utf8_to_dos : text -> N -> text)
      (MSG_Get : text -> text) (code_page : N) (st : State) :
  invariant utf8_to_dos st ->
  invariant utf8_to_dos
    (AUTOEXEC_RegisterFile utf8_to_dos MSG_Get code_page st).
Proof.
  intros (V & M & R & _). unfold AUTOEXEC_RegisterFile.
  apply invariant_publish; assumption.
Qed.

Lemma invariant_run (utf8_to_dos : text -> N -> text)
      (MSG_Get : text -> text) (C_DEBUG : bool) (op : Operation)
      (st st' : State) :
  invariant utf8_to_dos st ->
  run utf8_to_dos MSG_Get C_DEBUG op st = Returns st' ->
  invariant utf8_to_dos st'.
Proof.
  intros I. destruct op as [c|data|name value|cp|shutdown cp|h s];
    cbn [run].
  - intros [= <-]. exact (invariant_insertions _ [c] false _ I).
  - intros [= <-]. rewrite ProcessConfigFile_inserts.
    now apply invariant_insertions.
  - unfold AUTOEXEC_SetVariable.
    destruct (C_DEBUG && negb _); [discriminate|].
    destruct (C_DEBUG && negb _); [discriminate|].
    intros [= <-]. apply (invariant_composer _ st).
    + exact I.
    + repeat split.
    + destruct I as ((O & F) & _). split.
      * exact (assign_ok _ _ _ O).
      * exact (assign_entries _ _ _ F).
    + apply I.
  - intros [= <-]. now apply invariant_register.
  - intros [= <-]. unfold AUTOEXEC_NotifyNewCodePage.
    destruct (shutdown || negb (is_vfile_registered st)); [exact I|].
    destruct (cp =? vfile_code_page st)%N; [exact I|].
    destruct I as (V & M & R & _). now apply invariant_publish.
  - intros [= <-]. unfold AutoExecModule. apply invariant_register.
    destruct (compose_autoexec_inserts h s st) as (b1 & b2 & ->).
    now apply invariant_insertions.
Qed.

Lemma invariant_run_all (utf8_to_dos : text -> N -> text)
      (MSG_Get : text -> text) (C_DEBUG : bool) (ops : list Operation)
      (st st' : State) :
  invariant utf8_to_dos st ->
  run_all utf8_to_dos MSG_Get C_DEBUG ops st = Returns st' ->
  invariant utf8_to_dos st'.
Proof.
  revert st. induction ops as [|op ops IH]; intros st I.
  - now intros [= <-].
  - cbn [run_all].
    destruct (run utf8_to_dos MSG_Get C_DEBUG op st) as [m|st1] eqn:R;
      [discriminate|].
    cbn [and_then]. apply IH. exact (invariant_run _ _ _ _ _ _ I R).
Qed.

Lemma invariant_initial (utf8_to_dos : text -> N -> text) :
  invariant utf8_to_dos initial_state.
Proof. repeat split; constructor. Qed.

(** X1: after any sequence of calls from the initial state, the virtual
    file system has been called as often as the UTF-8 engine; before the
    first publication it has not been called at all, and afterwards its
    calls are one [VFILE_Register], the earliest, followed by
    [VFILE_Update]s only. *)
Theorem file_registered_once (utf8_to_dos : text -> N -> text)
        (MSG_Get : text -> text) (C_DEBUG : bool) (ops : list Operation)
        (st : State) :
  run_all utf8_to_dos MSG_Get C_DEBUG ops initial_state = Returns st ->
  length (utf8_to_dos_calls st) = length (vfile_calls st)
  /\ (is_vfile_registered st = false -> vfile_calls st = [])
  /\ (is_vfile_registered st = true ->
      exists updates data,
        vfile_calls st = updates ++ [VFILE_Register autoexec_file_name data]
        /\ Forall is_update updates).
Proof.
  intros R.
  destruct (invariant_run_all _ _ _ _ _ _ (invariant_initial utf8_to_dos) R)
    as (_ & _ & (L & S) & _).
  split; [exact L|]. split; intros E; rewrite E in S; exact S.
Qed.

Lemma file_registered_once_witness :
  run_all stub_utf8_to_dos default_messages true sample_operations
          initial_state = Returns sample_state
  /\ length (utf8_to_dos_calls sample_state)
     = length (vfile_calls sample_state)
  /\ (is_vfile_registered sample_state = false ->
      vfile_calls sample_state = [])
  /\ (is_vfile_registered sample_state = true ->
      exists updates data,
        vfile_calls sample_state
        = updates ++ [VFILE_Register autoexec_file_name data]
        /\ Forall is_update updates).
Proof.
  split; [reflexivity|].
  exact (file_registered_once stub_utf8_to_dos default_messages true
           sample_operations sample_state eq_refl).
Defined.

(** X2: after any sequence of calls from the initial state, the published
    file, if there is one, is the conversion of the stored UTF-8 text to
    the cached code page; there is none exactly while the file is not
    registered. *)
Theorem published_is_stored_text (utf8_to_dos : text -> N -> text)
        (MSG_Get : text -> text) (C_DEBUG : bool) (ops : list Operation)
        (st : State) :
  run_all utf8_to_dos MSG_Get C_DEBUG ops initial_state = Returns st ->
  published st
  = if is_vfile_registered st
    then Some (utf8_to_dos (autoexec_bat_utf8 st) (vfile_code_page st))
    else None.
Proof.
  intros R.
  exact (proj2 (proj2 (proj2
    (invariant_run_all _ _ _ _ _ _ (invariant_initial utf8_to_dos) R)))).
Qed.

Lemma published_is_stored_text_witness :
  run_all stub_utf8_to_dos default_messages true sample_operations
          initial_state = Returns sample_state
  /\ published sample_state
     = if is_vfile_registered sample_state
       then Some (stub_utf8_to_dos (autoexec_bat_utf8 sample_state)
                                   (vfile_code_page sample_state))
       else None.
Proof.
  split; [reflexivity|].
  exact (published_is_stored_text stub_utf8_to_dos default_messages true
           sample_operations sample_state eq_refl).
Defined.

(** X3: after any sequence of calls from the initial state, the variables
    are held under upper-cased names, in strictly ascending order (so no
    name twice), and none has an empty value. *)
Theorem variables_stay_normalised (utf8_to_dos : text -> N -> text)
        (MSG_Get : text -> text) (C_DEBUG : bool) (ops : list Operation)
        (st : State) :
  run_all utf8_to_dos MSG_Get C_DEBUG ops initial_state = Returns st ->
  StronglySorted text_lt (keys (autoexec_variables st))
  /\ Forall (fun nv => upcase (fst nv) = fst nv /\ snd nv <> [])
            (autoexec_variables st).
Proof.
  intros R.
  exact (proj1
    (invariant_run_all _ _ _ _ _ _ (invariant_initial utf8_to_dos) R)).
Qed.

Lemma variables_stay_normalised_witness :
  run_all stub_utf8_to_dos default_messages true sample_operations
          initial_state = Returns sample_state
  /\ StronglySorted text_lt (keys (autoexec_variables sample_state))
  /\ Forall (fun nv => upcase (fst nv) = fst nv /\ snd nv <> [])
            (autoexec_variables sample_state).
Proof.
  split; [reflexivity|].
  exact (variables_stay_normalised stub_utf8_to_dos default_messages true
           sample_operations sample_state eq_refl).
Defined.

(** X4: a notification repeated with the same arguments changes nothing
    more: no second conversion, no second update. *)
Theorem notify_idempotent (utf8_to_dos : text -> N -> text)
        (shutdown_requested : bool) (code_page : N) (st : State) :
  AUTOEXEC_NotifyNewCodePage utf8_to_dos shutdown_requested code_page
    (AUTOEXEC_NotifyNewCodePage utf8_to_dos shutdown_requested code_page st)
  = AUTOEXEC_NotifyNewCodePage utf8_to_dos shutdown_requested code_page st.
Proof.
  unfold AUTOEXEC_NotifyNewCodePage at 2.
  destruct (shutdown_requested || negb (is_vfile_registered st)) eqn:G.
  - unfold AUTOEXEC_NotifyNewCodePage. now rewrite G.
  - destruct (code_page =? vfile_code_page st)%N eqn:E.
    + unfold AUTOEXEC_NotifyNewCodePage. now rewrite G, E.
    + apply orb_false_elim in G. destruct G as [-> G].
      apply negb_false_iff in G.
      unfold AUTOEXEC_NotifyNewCodePage, create_autoexec_bat_dos.
      cbn [is_vfile_registered vfile_code_page].
      rewrite G, E. cbn [negb orb]. now rewrite N.eqb_refl.
Qed.

(** X5: once AUTOEXEC_RegisterFile has run, a notification outside shutdown
    leaves in the file the text rendered at registration, converted to the
    notified code page, whichever code page that is. *)
Theorem register_then_notify (utf8_to_dos : text -> N -> text)
        (MSG_Get : text -> text) (code_page code_page' : N) (st : State) :
  let st' := AUTOEXEC_NotifyNewCodePage utf8_to_dos false code_page'
               (AUTOEXEC_RegisterFile utf8_to_dos MSG_Get code_page st) in
  published st'
  = Some (utf8_to_dos (create_autoexec_bat_utf8 MSG_Get st) code_page')
  /\ vfile_code_page st' = code_page'
  /\ autoexec_bat_utf8 st' = create_autoexec_bat_utf8 MSG_Get st.
Proof.
  unfold AUTOEXEC_NotifyNewCodePage, AUTOEXEC_RegisterFile,
    create_autoexec_bat_dos.
  cbn [is_vfile_registered vfile_code_page autoexec_bat_utf8 negb orb].
  destruct (N.eqb_spec code_page' code_page) as [->|D].
  - unfold published. cbn. repeat split.
    now destruct (is_vfile_registered st).
  - unfold published. cbn. repeat split.
Qed.

(** ** More on the generated text *)

Lemma emit_nil_inv (ls : list text) : emit ls = [] -> ls = [].
Proof.
  intros E. apply (f_equal (@empty ascii)) in E. rewrite empty_emit in E.
  now destruct ls.
Qed.

Lemma body_lines_nil_inv (MSG_Get : text -> text) (e g c : bool)
      (m : std_map Location (list text)) :
  body_lines MSG_Get e g c m = [] ->
  Forall (fun entry => snd entry = []) m.
Proof.
  revert e g c. induction m as [|[k v] r IH]; intros e g c H; [constructor|].
  destruct v as [|l v].
  - constructor; [reflexivity|]. destruct k; exact (IH _ _ _ H).
  - exfalso. destruct k; cbn [body_lines] in H;
      apply app_eq_nil in H; destruct H as [_ H]; discriminate H.
Qed.

(** X6: the generated text is empty exactly when there is nothing to put
    in it: the echo-off flag unset, no variable, every buffer empty. *)
Theorem script_empty_iff (MSG_Get : text -> text) (st : State) :
  create_autoexec_bat_utf8 MSG_Get st = []
  <-> autoexec_has_echo_off st = false
      /\ autoexec_variables st = []
      /\ all_buffers_empty st.
Proof.
  rewrite create_autoexec_bat_utf8_lines. split.
  - intros E. apply emit_nil_inv, app_eq_nil in E. destruct E as [P B].
    apply (f_equal (@empty text)) in P.
    rewrite empty_preamble_lines in P. cbn [empty] in P.
    apply negb_true_iff, orb_false_elim in P. destruct P as [E V].
    apply negb_false_iff in V.
    split; [exact E|]. split; [now destruct (autoexec_variables st)|].
    exact (body_lines_nil_inv _ _ _ _ _ B).
  - intros (E & V & B). rewrite E, V.
    now rewrite (body_lines_all_empty _ _ _ _ _ B).
Qed.

Lemma emit_ends_with_crlf (ls : list text) :
  ls <> [] -> exists prefix, emit ls = prefix ++ crlf.
Proof.
  intros N. destruct (exists_last N) as (front & l & ->).
  exists (emit front ++ l). rewrite emit_app, emit_cons.
  change (emit []) with (@nil ascii).
  now rewrite app_nil_r, app_assoc.
Qed.

(** X7: the generated text is empty or ends with carriage return and line
    feed: the last line is never left unterminated. *)
Theorem script_ends_with_crlf (MSG_Get : text -> text) (st : State) :
  create_autoexec_bat_utf8 MSG_Get st = []
  \/ exists prefix,
      create_autoexec_bat_utf8 MSG_Get st = prefix ++ [char_cr; char_lf].
Proof.
  rewrite create_autoexec_bat_utf8_lines.
  destruct (preamble_lines _ _ _ ++ body_lines _ _ _ _ _) as [|l ls] eqn:E.
  - now left.
  - right. apply emit_ends_with_crlf. discriminate.
Qed.

(** X8: with no line from the [autoexec] section, all the generated
    content is one block: the lines placed after follow the lines placed
    before at once, and the banner of generated lines stands once, at the
    top (it belongs to the preamble when there is one). *)
Theorem one_generated_block (MSG_Get : text -> text) (st : State) :
  map_ok Location_compare (autoexec_lines st) ->
  buffer ConfigFileAutoexec st = [] ->
  let head := preamble_lines MSG_Get (autoexec_has_echo_off st)
                             (autoexec_variables st) in
  let generated := buffer GeneratedBeforeAutoexec st
                   ++ buffer GeneratedAfterAutoexec st in
  create_autoexec_bat_utf8 MSG_Get st
  = emit (head
            ++ (if empty head && negb (empty generated)
                then [comment_generated MSG_Get; []] else [])
            ++ generated).
Proof.
  intros H U head generated.
  rewrite (script_of_buffers MSG_Get st H). fold head. rewrite U.
  subst generated. f_equal. f_equal.
  destruct (buffer GeneratedBeforeAutoexec st),
    (buffer GeneratedAfterAutoexec st), head; reflexivity.
Qed.

Lemma one_generated_block_witness :
  let st := AddCommandAfter (str "@EXIT")
              (AddCommandBefore (str "MOUNT C") initial_state) in
  map_ok Location_compare (autoexec_lines st)
  /\ buffer ConfigFileAutoexec st = []
  /\ create_autoexec_bat_utf8 default_messages st
     = emit [str ":: autogenerated"; []; str "MOUNT C"; str "@EXIT"].
Proof.
  intros st.
  assert (O : map_ok Location_compare (autoexec_lines st)).
  { repeat constructor. }
  split; [exact O|]. split; [reflexivity|].
  exact (one_generated_block default_messages st O eq_refl).
Defined.

(** ** Reading the [autoexec] section *)

Lemma getlines_line (l rest acc : text) :
  ~ In char_lf l ->
  getlines acc (l ++ char_lf :: rest) = (acc ++ l) :: getlines [] rest.
Proof.
  revert acc. induction l as [|c l IH]; intros acc N.
  - cbn [app getlines]. destruct (ascii_dec char_lf char_lf); [|contradiction].
    now rewrite app_nil_r.
  - cbn [app getlines]. destruct (ascii_dec c char_lf) as [->|D].
    + exfalso. apply N. now left.
    + rewrite IH, <- app_assoc; [reflexivity|].
      intros I. apply N. now right.
Qed.

(** X9: lines without line feed, written out with a line feed after each,
    are read back by the [getline] loop exactly as they were, empty lines
    included. *)
Theorem getlines_unlines (lines : list text) :
  Forall (fun l => ~ In char_lf l) lines ->
  getlines [] (unlines lines) = lines.
Proof.
  induction 1 as [|l lines N _ IH]; [reflexivity|].
  unfold unlines in *. cbn [map concat]. rewrite <- app_assoc.
  cbn [app]. rewrite (getlines_line _ _ _ N), IH. reflexivity.
Qed.

Lemma getlines_unlines_witness :
  Forall (fun l => ~ In char_lf l) [str "DIR"; []; str " echo off "]
  /\ getlines [] (unlines [str "DIR"; []; str " echo off "])
     = [str "DIR"; []; str " echo off "].
Proof.
  assert (F : Forall (fun l => ~ In char_lf l)
                     [str "DIR"; []; str " echo off "]).
  { repeat constructor; cbn; intuition discriminate. }
  split; [exact F|].
  exact (getlines_unlines [str "DIR"; []; str " echo off "] F).
Defined.

Lemma last_cons (A : Type) (c d : A) (r : list A) :
  last (c :: r) d = last r c.
Proof.
  revert c d. induction r as [|x r IH]; intros c d; [reflexivity|].
  change (last (c :: x :: r) d) with (last (x :: r) d).
  now rewrite (IH x d), (IH x c).
Qed.

Lemma getlines_rejoined (s line : text) :
  unlines (getlines line s)
  = line ++ (if ascii_dec (last s (if empty line then char_lf else zero))
                          char_lf
             then s else s ++ [char_lf]).
Proof.
  revert line. induction s as [|c s IH]; intros line.
  - destruct line as [|a line]; cbn [getlines empty last].
    + destruct (ascii_dec char_lf char_lf); [reflexivity|contradiction].
    + destruct (ascii_dec zero char_lf); [discriminate|].
      unfold unlines. cbn [map concat app]. now rewrite app_nil_r.
  - rewrite last_cons. cbn [getlines].
    destruct (ascii_dec c char_lf) as [->|D].
    + unfold unlines at 1. cbn [map concat]. fold (unlines (getlines [] s)).
      rewrite IH. cbn [empty app]. rewrite <- app_assoc.
      now destruct (ascii_dec (last s char_lf) char_lf).
    + rewrite IH, <- app_assoc. f_equal.
      rewrite empty_app, andb_false_r. cbn [app].
      destruct s as [|x s].
      * cbn [last]. destruct (ascii_dec zero char_lf); [discriminate|].
        now destruct (ascii_dec c char_lf).
      * rewrite !last_cons. now destruct (ascii_dec (last s x) char_lf).
Qed.

Lemma getlines_no_line_feed (s line : text) :
  ~ In char_lf line ->
  Forall (fun l => ~ In char_lf l) (getlines line s).
Proof.
  revert line. induction s as [|c s IH]; intros line N; cbn [getlines].
  - destruct line; repeat constructor. exact N.
  - destruct (ascii_dec c char_lf) as [->|D].
    + constructor; [exact N|]. apply IH. intros [].
    + apply IH. rewrite in_app_iff. intros [I|[I|[]]]; [now apply N|].
      now apply D.
Qed.

(** X10: the lines that the [getline] loop reads hold no line feed, and
    written out again with a line feed after each they give back the text
    read, with a line feed added at the end if the text did not end with
    one (an empty text gives no line). *)
Theorem getlines_rejoin (s : text) :
  Forall (fun l => ~ In char_lf l) (getlines [] s)
  /\ unlines (getlines [] s)
     = if ascii_dec (last s char_lf) char_lf then s else s ++ [char_lf].
Proof.
  split.
  - apply getlines_no_line_feed. intros [].
  - exact (getlines_rejoined s []).
Qed.

Lemma trim_left_incl (c : ascii) (s : text) : In c (trim_left s) -> In c s.
Proof.
  induction s as [|x s IH]; [auto|]. cbn [trim_left].
  destruct (is_trim_char x); [|auto]. intros I. right. auto.
Qed.

Lemma trim_incl (c : ascii) (s : text) : In c (trim s) -> In c s.
Proof.
  unfold trim. rewrite <- in_rev. intros I.
  apply trim_left_incl in I. rewrite <- in_rev in I.
  now apply trim_left_incl.
Qed.

Lemma config_lines_no_line_feed (section_data : text) :
  Forall (fun l => ~ In char_lf l) (config_lines section_data)
  /\ length (config_lines section_data)
     <= length (getlines [] section_data).
Proof.
  unfold config_lines.
  assert (F : Forall (fun l => ~ In char_lf l)
                     (map trim (getlines [] section_data))).
  { apply Forall_map. eapply Forall_impl;
      [|exact (proj1 (getlines_rejoin section_data))].
    cbn beta. intros l N I. apply N. now apply trim_incl. }
  pose proof (length_map trim (getlines [] section_data)) as L.
  destruct (map trim (getlines [] section_data)) as [|first rest];
    [split; [constructor|cbn; lia]|].
  cbn [length] in L.
  destruct (check_echo_off first).
  - inversion F; subst. split; [assumption|lia].
  - split; [exact F|cbn [length]; lia].
Qed.

Lemma inserted_other (location : Location) (lines : list text)
      (make : text -> Insertion) :
  (forall l, Location_eqb (location_of (make l)) location = false) ->
  inserted location (map make lines) = [].
Proof.
  intros D. unfold inserted. induction lines as [|l lines IH];
    [reflexivity|]. cbn [map filter]. now rewrite D.
Qed.

Lemma inserted_same (location : Location) (lines : list text)
      (make : text -> Insertion) :
  (forall l, Location_eqb (location_of (make l)) location = true) ->
  (forall l, line_of (make l) = l) ->
  inserted location (map make lines) = lines.
Proof.
  intros D L. unfold inserted. induction lines as [|l lines IH];
    [reflexivity|]. cbn [map filter]. rewrite D. cbn [map].
  now rewrite L, IH.
Qed.

(** X11: ProcessConfigFile only appends to the lines of the [autoexec]
    section; what it appends holds no line feed, so that each is one line
    of the generated text, and counts at most as many lines as the
    [getline] loop read. *)
Theorem config_file_appends (section_data : text) (st : State) :
  exists added,
    buffer ConfigFileAutoexec (ProcessConfigFile section_data st)
    = buffer ConfigFileAutoexec st ++ added
    /\ Forall (fun l => ~ In char_lf l) added
    /\ length added <= length (getlines [] section_data).
Proof.
  exists (config_lines section_data).
  rewrite ProcessConfigFile_inserts.
  destruct (insertions_frame (map User (config_lines section_data))
              (if config_echo_off section_data
               then with_echo_off true st else st)) as (_ & _ & _ & B).
  rewrite B. split; [|apply config_lines_no_line_feed].
  f_equal.
  - now destruct (config_echo_off section_data).
  - apply inserted_same; reflexivity.
Qed.

(** X12: ProcessConfigFile leaves the two generated buffers, the
    variables, the stored text and the published file as they are, and
    never clears the echo-off flag: the flag afterwards is set if it was
    set before or if the first line read is an echo-off line. *)
Theorem config_file_frame (section_data : text) (st : State) :
  let st' := ProcessConfigFile section_data st in
  buffer GeneratedBeforeAutoexec st' = buffer GeneratedBeforeAutoexec st
  /\ buffer GeneratedAfterAutoexec st' = buffer GeneratedAfterAutoexec st
  /\ autoexec_variables st' = autoexec_variables st
  /\ same_publication st' st
  /\ first_shell st' = first_shell st
  /\ autoexec_has_echo_off st'
     = autoexec_has_echo_off st
       || match getlines [] section_data with
          | [] => false
          | first :: _ => check_echo_off (trim first)
          end.
Proof.
  intros st'. subst st'. rewrite ProcessConfigFile_inserts.
  fold (config_echo_off section_data).
  set (st0 := if config_echo_off section_data
              then with_echo_off true st else st).
  destruct (insertions_frame (map User (config_lines section_data)) st0)
    as (E & V & _ & B).
  destruct (insertions_publication (map User (config_lines section_data)) st0)
    as (P & S).
  rewrite !B, E, V, S, !inserted_other, !app_nil_r by reflexivity.
  subst st0.
  destruct (config_echo_off section_data).
  - repeat split; try apply P. cbn. now rewrite orb_true_r.
  - repeat split; try apply P. now rewrite orb_false_r.
Qed.

Lemma tolower_toupper (c : ascii) : tolower (toupper c) = tolower c.
Proof. destruct c as [[] [] [] [] [] [] [] []]; reflexivity. Qed.

Lemma tolower_idempotent (c : ascii) : tolower (tolower c) = tolower c.
Proof. destruct c as [[] [] [] [] [] [] [] []]; reflexivity. Qed.

Lemma echo_off_test_case (f : ascii -> ascii) (tmp : text) :
  (forall c, tolower (f c) = tolower c) ->
  echo_off_test (map f tmp) = echo_off_test tmp.
Proof.
  intros F. unfold echo_off_test.
  assert (L : lowcase (map f tmp) = lowcase tmp).
  { unfold lowcase. rewrite map_map. now apply List.map_ext. }
  now rewrite L, length_map.
Qed.

Lemma check_echo_off_case (f : ascii -> ascii) (line : text) :
  (forall c, tolower (f c) = tolower c) ->
  (forall c, f c = "@"%char <-> c = "@"%char) ->
  check_echo_off (map f line) = check_echo_off line.
Proof.
  intros F A. rewrite !check_echo_off_unfold.
  destruct line as [|c r]; [reflexivity|]. cbn [map].
  destruct (ascii_dec (f c) "@"%char) as [E|N],
    (ascii_dec c "@"%char) as [E'|N'].
  - now apply echo_off_test_case.
  - apply (proj1 (A c)) in E. contradiction.
  - apply (proj2 (A c)) in E'. contradiction.
  - exact (echo_off_test_case f (c :: r) F).
Qed.

(** X13: the test for the echo-off line does not depend on the letter
    case of the line: the line upper-cased or lower-cased passes exactly
    when the line does. *)
Theorem check_echo_off_ignores_case (line : text) :
  check_echo_off (upcase line) = check_echo_off line
  /\ check_echo_off (lowcase line) = check_echo_off line.
Proof.
  split.
  - apply check_echo_off_case; [exact tolower_toupper|].
    intros c. destruct c as [[] [] [] [] [] [] [] []]; vm_compute;
      split; congruence.
  - apply check_echo_off_case; [exact tolower_idempotent|].
    intros c. destruct c as [[] [] [] [] [] [] [] []]; vm_compute;
      split; congruence.
Qed.

(** ** More on the variables *)

Lemma find_In (k v : text) (m : std_map text text) :
  map_find text_compare k m = Some v -> In (k, v) m.
Proof.
  induction m as [|[k1 v1] r IH]; [discriminate|]. cbn [map_find].
  destruct (text_compare k k1) eqn:E.
  - intros [= ->]. apply text_compare_eq in E. subst k1. now left.
  - discriminate.
  - intros F. right. auto.
Qed.

(** X14: a variable set to a non-empty value shows in the next
    registration: the stored text then holds the line
    [@SET NAME=value], NAME being the name upper-cased, as one of its
    lines (whole lines stand before and after it), and the published file
    is the conversion of that text. *)
Theorem set_then_register (utf8_to_dos : text -> N -> text)
        (MSG_Get : text -> text) (C_DEBUG : bool) (name value : text)
        (code_page : N) (st : State) :
  accepted C_DEBUG name value = true ->
  value <> [] ->
  exists st1 front back,
    AUTOEXEC_SetVariable C_DEBUG name value st = Returns st1
    /\ autoexec_bat_utf8
         (AUTOEXEC_RegisterFile utf8_to_dos MSG_Get code_page st1)
       = emit (front
                 ++ [str "@SET " ++ upcase name ++ str "=" ++ value]
                 ++ back)
    /\ published (AUTOEXEC_RegisterFile utf8_to_dos MSG_Get code_page st1)
       = Some (utf8_to_dos
                 (emit (front
                          ++ [str "@SET " ++ upcase name ++ str "=" ++ value]
                          ++ back)) code_page).
Proof.
  intros A N.
  pose (st1 := with_variables
                 (assign (upcase name) value (autoexec_variables st))
                 (SetEnv (c_str (upcase name)) (c_str value) (first_shell st))
                 st).
  exists st1.
  assert (I : In (upcase name, value) (autoexec_variables st1)).
  { apply find_In. subst st1. cbn [autoexec_variables with_variables].
    unfold assign.
    destruct value as [|c value]; [contradiction|]. cbn [empty].
    apply (find_at_same _ _ _ text_compare_eq). }
  assert (L : In (set_line (upcase name, value))
                 (preamble_lines MSG_Get (autoexec_has_echo_off st1)
                                 (autoexec_variables st1)
                  ++ body_lines MSG_Get
                       (negb (autoexec_has_echo_off st1
                              || negb (empty (autoexec_variables st1))))
                       (autoexec_has_echo_off st1
                        || negb (empty (autoexec_variables st1)))
                       false (autoexec_lines st1))).
  { apply in_or_app. left. unfold preamble_lines.
    destruct (autoexec_variables st1) as [|nv r]; [contradiction|].
    rewrite orb_true_r. cbn [empty].
    apply in_or_app. right. apply in_or_app. right.
    apply in_or_app. left. right. now apply in_map. }
  destruct (in_split _ _ L) as (front & back & E).
  exists front, back.
  split; [exact (AUTOEXEC_SetVariable_accepted _ _ _ _ A)|].
  assert (T : autoexec_bat_utf8
                (AUTOEXEC_RegisterFile utf8_to_dos MSG_Get code_page st1)
              = emit (front ++ [set_line (upcase name, value)] ++ back)).
  { change (front ++ [set_line (upcase name, value)] ++ back)
      with (front ++ set_line (upcase name, value) :: back).
    rewrite <- E, <- create_autoexec_bat_utf8_lines. reflexivity. }
  split; [exact T|].
  change (published (AUTOEXEC_RegisterFile utf8_to_dos MSG_Get code_page st1))
    with (published
            (create_autoexec_bat_dos utf8_to_dos
               (create_autoexec_bat_utf8 MSG_Get st1) code_page
               (mkState (create_autoexec_bat_utf8 MSG_Get st1)
                        (is_vfile_registered st1) (vfile_code_page st1)
                        (autoexec_has_echo_off st1) (autoexec_variables st1)
                        (autoexec_lines st1) (vfile_calls st1)
                        (utf8_to_dos_calls st1) (first_shell st1)))).
  unfold published, create_autoexec_bat_dos.
  cbn [vfile_calls is_vfile_registered].
  change (create_autoexec_bat_utf8 MSG_Get st1)
    with (autoexec_bat_utf8
            (AUTOEXEC_RegisterFile utf8_to_dos MSG_Get code_page st1)).
  rewrite T. now destruct (is_vfile_registered st1).
Qed.

Lemma set_then_register_witness :
  accepted true (str "path") (str "Z:\") = true
  /\ str "Z:\" <> []
  /\ exists st1 front back,
      AUTOEXEC_SetVariable true (str "path") (str "Z:\") sample_state
      = Returns st1
      /\ autoexec_bat_utf8
           (AUTOEXEC_RegisterFile stub_utf8_to_dos default_messages 850 st1)
         = emit (front
                   ++ [str "@SET " ++ upcase (str "path") ++ str "="
                           ++ str "Z:\"]
                   ++ back)
      /\ published
           (AUTOEXEC_RegisterFile stub_utf8_to_dos default_messages 850 st1)
         = Some (stub_utf8_to_dos
                   (emit (front
                            ++ [str "@SET " ++ upcase (str "path") ++ str "="
                                    ++ str "Z:\"]
                            ++ back)) 850).
Proof.
  assert (N : str "Z:\" <> []) by discriminate.
  split; [reflexivity|]. split; [exact N|].
  exact (set_then_register stub_utf8_to_dos default_messages true
           (str "path") (str "Z:\") 850 sample_state eq_refl N).
Defined.

Lemma assign_all_find (calls : list (text * text)) (m : std_map text text)
      (k : text) :
  map_ok text_compare m ->
  map_find text_compare k
    (fold_left (fun m c => assign (upcase (fst c)) (snd c) m) calls m)
  = match last_call k calls with
    | Some c => if empty (snd c) then None else Some (snd c)
    | None => map_find text_compare k m
    end.
Proof.
  intros H. induction calls as [|c calls IH] using rev_ind.
  - reflexivity.
  - rewrite fold_left_app. cbn [fold_left].
    rewrite find_assign by now apply assign_all_ok.
    unfold last_call. rewrite rev_app_distr. cbn [rev app find].
    destruct (text_eq_dec k (upcase (fst c))) as [->|D].
    + destruct (text_eq_dec (upcase (fst c)) (upcase (fst c)));
        [reflexivity|contradiction].
    + destruct (text_eq_dec (upcase (fst c)) k) as [E|_];
        [symmetry in E; contradiction|].
      exact IH.
Qed.

(** X15: after a sequence of SetVariable calls that the build accepts,
    looking a name up gives what the last call for that name (up to letter
    case) asked for: its value, or nothing if that value was empty; a name
    no call mentions is as before. *)
Theorem lookup_after_calls (C_DEBUG : bool) (calls : list (text * text))
        (st : State) :
  map_ok text_compare (autoexec_variables st) ->
  all_accepted C_DEBUG calls ->
  exists st',
    set_variables C_DEBUG calls st = Returns st'
    /\ forall name_upcase,
        variable name_upcase st'
        = match last_call name_upcase calls with
          | Some call => if empty (snd call) then None else Some (snd call)
          | None => variable name_upcase st
          end.
Proof.
  intros H A.
  destruct (set_variables_accepted C_DEBUG calls st A) as (st' & R & V & _).
  exists st'. split; [exact R|]. intros k. unfold variable.
  rewrite V. now apply assign_all_find.
Qed.

Lemma lookup_after_calls_witness :
  let calls := [(str "path", str "C:\X"); (str "Temp", str "C:\T");
                (str "PATH", str "Z:\"); (str "temp", [])] in
  map_ok text_compare (autoexec_variables initial_state)
  /\ all_accepted true calls
  /\ exists st',
      set_variables true calls initial_state = Returns st'
      /\ forall name_upcase,
          variable name_upcase st'
          = match last_call name_upcase calls with
            | Some call => if empty (snd call) then None
                           else Some (snd call)
            | None => variable name_upcase initial_state
            end.
Proof.
  intros calls.
  assert (O : map_ok text_compare (autoexec_variables initial_state))
    by constructor.
  assert (A : all_accepted true calls) by (repeat constructor).
  split; [exact O|]. split; [exact A|].
  exact (lookup_after_calls true calls initial_state O A).
Defined.

(** ** The constructor *)

Lemma compose_autoexec_buffers (h : Host) (s : Startup) (st : State) :
  buffer ConfigFileAutoexec (compose_autoexec h s st)
  = buffer ConfigFileAutoexec st ++ user_lines h s
  /\ buffer GeneratedAfterAutoexec (compose_autoexec h s st)
     = buffer GeneratedAfterAutoexec st ++ after_lines h s
  /\ autoexec_has_echo_off (compose_autoexec h s st)
     = autoexec_has_echo_off st || startup_echo_off h s
  /\ (map_ok Location_compare (autoexec_lines st) ->
      map_ok Location_compare (autoexec_lines (compose_autoexec h s st))).
Proof.
  destruct (compose_autoexec_inserts h s st) as (b1 & b2 & ->).
  set (st0 := if startup_echo_off h s then with_echo_off true st else st).
  destruct (insertions_frame
              (map Before b1 ++ map User (user_lines h s)
                 ++ map Before b2 ++ map After (after_lines h s)) st0)
    as (E & _ & O & B).
  rewrite !B, E, !inserted_app.
  rewrite !(inserted_other ConfigFileAutoexec _ Before),
    !(inserted_other ConfigFileAutoexec _ After),
    !(inserted_same ConfigFileAutoexec _ User),
    !(inserted_other GeneratedAfterAutoexec _ Before),
    !(inserted_other GeneratedAfterAutoexec _ User),
    !(inserted_same GeneratedAfterAutoexec _ After) by reflexivity.
  cbn [app]. rewrite !app_nil_r. subst st0.
  destruct (startup_echo_off h s).
  - repeat split; try exact O. now rewrite orb_true_r.
  - repeat split; try exact O. now rewrite orb_false_r.
Qed.

(** X16: the positional arguments are read up to the first that is not a
    CD image; the arguments after it are ignored, the CD images before it
    are quoted, joined by spaces and mounted as drive D first, and the
    lines it adds all go before the [autoexec] section. *)
Theorem first_launch_wins (h : Host) (secure : bool) (images : list text)
        (argument : text) (rest : list text) (st : State) :
  Forall (fun a => is_cd_image h a = true) images ->
  is_cd_image h argument = false ->
  find_dir_or_command h secure (images ++ argument :: rest) [] st
  = (fold_left insert
       (map Before (launch_lines h secure argument (join_images images))) st,
     true, join_images images).
Proof.
  intros F A.
  exact (eq_trans
           (cd_images_skipped h secure images (argument :: rest) [] st F)
           (launch_inserts h secure argument rest (join_images images) st A)).
Qed.

Lemma first_launch_wins_witness :
  Forall (fun a => is_cd_image plain_host a = true)
         [str "a.iso"; str "b.cue"]
  /\ is_cd_image plain_host (str "game.bat") = false
  /\ autoexec_lines
       (fst (fst (find_dir_or_command plain_host true
                    ([str "a.iso"; str "b.cue"]
                       ++ str "game.bat" :: [str "ignored.exe"])
                    [] initial_state)))
     = [(GeneratedBeforeAutoexec,
         [str "@Z:\IMGMOUNT.COM D " ++ quote ++ str "a.iso" ++ quote
            ++ str " " ++ quote ++ str "b.cue" ++ quote ++ str " -t iso";
          str "@Z:\CONFIG.COM -securemode";
          str "CALL game.bat"])].
Proof.
  assert (F : Forall (fun a => is_cd_image plain_host a = true)
                     [str "a.iso"; str "b.cue"]).
  { repeat constructor. }
  split; [exact F|]. split; [reflexivity|].
  exact (f_equal (fun r => autoexec_lines (fst (fst r)))
           (first_launch_wins plain_host true [str "a.iso"; str "b.cue"]
              (str "game.bat") [str "ignored.exe"] initial_state
              F eq_refl)).
Defined.

Lemma boot_image_launch (h : Host) (secure : bool) (argument : text)
      (cdrom_images : text) :
  is_boot_image h argument = true ->
  is_cd_image h argument = false
  /\ launch_lines h secure argument cdrom_images
     = launch_lines h false argument cdrom_images.
Proof.
  unfold is_boot_image, is_cd_image, launch_lines.
  destruct (is_directory h argument
            || is_directory h (in_current_path h argument));
    [discriminate|].
  destruct (ends_with (upcase argument) (str ".BAT")); [discriminate|].
  destruct (ends_with (upcase argument) (str ".IMG")
            || ends_with (upcase argument) (str ".IMA")); [|discriminate].
  now split.
Qed.

(** X17: when the first positional argument that is not a CD image is a
    boot image, the [-securemode] switch has no effect on what the
    constructor does: no securemode command is added, before or after. *)
Theorem boot_image_ignores_securemode (utf8_to_dos : text -> N -> text)
        (MSG_Get : text -> text) (h : Host) (s : Startup) (secure : bool)
        (images : list text) (argument : text) (rest : list text)
        (st : State) :
  commands s = images ++ argument :: rest ->
  Forall (fun a => is_cd_image h a = true) images ->
  is_boot_image h argument = true ->
  AutoExecModule utf8_to_dos MSG_Get h (with_securemode secure s) st
  = AutoExecModule utf8_to_dos MSG_Get h (with_securemode false s) st.
Proof.
  intros C F B. unfold AutoExecModule. f_equal.
  destruct (boot_image_launch h secure argument (join_images images) B)
    as [A L].
  unfold compose_autoexec.
  cbn [with_securemode automount securemode noautoexec autoexec_section
       c_arguments exit_switch instant_launch has_executable_name commands
       configuration_data overwritten_autoexec_data utf8_code_page].
  rewrite add_c_arguments_inserts, C.
  rewrite !(first_launch_wins _ _ _ _ _ _ F A), L. reflexivity.
Qed.

Lemma boot_image_ignores_securemode_witness :
  let s := with_commands [str "cd.iso"; str "dos.img"; str "x"]
                         plain_startup in
  commands s = [str "cd.iso"] ++ str "dos.img" :: [str "x"]
  /\ Forall (fun a => is_cd_image plain_host a = true) [str "cd.iso"]
  /\ is_boot_image plain_host (str "dos.img") = true
  /\ AutoExecModule stub_utf8_to_dos default_messages plain_host
       (with_securemode true s) initial_state
     = AutoExecModule stub_utf8_to_dos default_messages plain_host
         (with_securemode false s) initial_state.
Proof.
  intros s.
  assert (F : Forall (fun a => is_cd_image plain_host a = true)
                     [str "cd.iso"]) by (repeat constructor).
  split; [reflexivity|]. split; [exact F|]. split; [reflexivity|].
  exact (boot_image_ignores_securemode stub_utf8_to_dos default_messages
           plain_host s true [str "cd.iso"] (str "dos.img") [str "x"]
           initial_state eq_refl F eq_refl).
Defined.

(** X18: when an exit is asked for (a [-c] option that is an exit call,
    the [-exit] switch, or an instant launch of an executable), the last
    line of the text that the constructor stores and publishes is
    [@EXIT]: the text is whole lines followed by that line. *)
Theorem exit_is_last_line (utf8_to_dos : text -> N -> text)
        (MSG_Get : text -> text) (h : Host) (s : Startup) (st : State) :
  map_ok Location_compare (autoexec_lines st) ->
  should_add_exit h s = true ->
  exists front,
    autoexec_bat_utf8 (AutoExecModule utf8_to_dos MSG_Get h s st)
    = emit (front ++ [str "@EXIT"])
    /\ published (AutoExecModule utf8_to_dos MSG_Get h s st)
       = Some (utf8_to_dos (emit (front ++ [str "@EXIT"]))
                           (utf8_code_page s)).
Proof.
  intros H X.
  destruct (compose_autoexec_buffers h s st) as (_ & A & _ & O).
  set (st' := compose_autoexec h s st) in *.
  assert (T : exists front,
             create_autoexec_bat_utf8 MSG_Get st'
             = emit (front ++ [str "@EXIT"])).
  { rewrite (script_of_buffers MSG_Get st' (O H)). rewrite A.
    unfold after_lines. rewrite X.
    set (post := buffer GeneratedAfterAutoexec st ++ _ ++ [str "@EXIT"]).
    assert (P : exists q, post = q ++ [str "@EXIT"]).
    { subst post. eexists. rewrite !app_assoc. reflexivity. }
    destruct P as (q & P). rewrite P.
    assert (N : empty (q ++ [str "@EXIT"]) = false) by (now destruct q).
    rewrite N.
    match goal with
    | |- exists front, emit ?L = _ =>
        assert (Q : exists front, L = front ++ [str "@EXIT"])
          by (eexists; rewrite !app_assoc; reflexivity);
        destruct Q as (front & ->)
    end.
    exists front. reflexivity. }
  destruct T as (front & T). exists front.
  unfold AutoExecModule, AUTOEXEC_RegisterFile, create_autoexec_bat_dos,
    published.
  cbn [autoexec_bat_utf8 vfile_calls is_vfile_registered]. fold st'.
  rewrite T. split; [reflexivity|].
  now destruct (is_vfile_registered st').
Qed.

Lemma exit_is_last_line_witness :
  let s := mkStartup false true false (str "join")
                     [str "mount d ."; str "exit"] false false false
                     [str "GAMES"] (str "DIR") [] 437 in
  map_ok Location_compare (autoexec_lines initial_state)
  /\ should_add_exit plain_host s = true
  /\ exists front,
      autoexec_bat_utf8
        (AutoExecModule stub_utf8_to_dos default_messages plain_host s
                        initial_state)
      = emit (front ++ [str "@EXIT"])
      /\ published
           (AutoExecModule stub_utf8_to_dos default_messages plain_host s
                           initial_state)
         = Some (stub_utf8_to_dos (emit (front ++ [str "@EXIT"]))
                                  (utf8_code_page s)).
Proof.
  intros s.
  assert (O : map_ok Location_compare (autoexec_lines initial_state))
    by constructor.
  split; [exact O|]. split; [reflexivity|].
  exact (exit_is_last_line stub_utf8_to_dos default_messages plain_host s
           initial_state O eq_refl).
Defined.

Lemma register_keeps_composer (utf8_to_dos : text -> N -> text)
      (MSG_Get : text -> text) (code_page : N) (st : State) :
  autoexec_lines (AUTOEXEC_RegisterFile utf8_to_dos MSG_Get code_page st)
  = autoexec_lines st
  /\ autoexec_has_echo_off
       (AUTOEXEC_RegisterFile utf8_to_dos MSG_Get code_page st)
     = autoexec_has_echo_off st.
Proof. split; reflexivity. Qed.

(** X19: the constructor appends at most two lines after the [autoexec]
    section, in this order: the securemode command, only if [-securemode]
    was given and no directory or command was found among the positional
    arguments, and [@EXIT], only if an exit was asked for. *)
Theorem after_section (utf8_to_dos : text -> N -> text)
        (MSG_Get : text -> text) (h : Host) (s : Startup) (st : State) :
  buffer GeneratedAfterAutoexec (AutoExecModule utf8_to_dos MSG_Get h s st)
  = buffer GeneratedAfterAutoexec st
      ++ (if negb (found_dir_or_command h (commands s)) && securemode s
          then [str "@Z:\CONFIG.COM -securemode"] else [])
      ++ (if should_add_exit h s then [str "@EXIT"] else []).
Proof.
  unfold AutoExecModule, buffer.
  rewrite (proj1 (register_keeps_composer _ _ _ _)).
  exact (proj1 (proj2 (compose_autoexec_buffers h s st))).
Qed.

(** X20: with [-noautoexec], or with a directory or command among the
    positional arguments unless [autoexec_section] is "join", the
    constructor takes nothing from the configuration: the lines of the
    [autoexec] section and the echo-off flag stay as they were. *)
Theorem command_line_overrides_config (utf8_to_dos : text -> N -> text)
        (MSG_Get : text -> text) (h : Host) (s : Startup) (st : State) :
  noautoexec s = true
  \/ (autoexec_section s <> str "join"
      /\ found_dir_or_command h (commands s) = true) ->
  let st' := AutoExecModule utf8_to_dos MSG_Get h s st in
  buffer ConfigFileAutoexec st' = buffer ConfigFileAutoexec st
  /\ autoexec_has_echo_off st' = autoexec_has_echo_off st.
Proof.
  intros C st'. subst st'. unfold AutoExecModule, buffer.
  rewrite (proj1 (register_keeps_composer _ _ _ _)),
    (proj2 (register_keeps_composer _ _ _ _)).
  destruct (compose_autoexec_buffers h s st) as (U & _ & E & _).
  unfold buffer in U. rewrite U, E.
  assert (N : used_section h s = None).
  { unfold used_section. destruct C as [-> | [J ->]]; [reflexivity|].
    destruct (noautoexec s); [reflexivity|].
    now destruct (text_eq_dec (autoexec_section s) (str "join")). }
  unfold user_lines, startup_echo_off. rewrite N.
  now rewrite app_nil_r, orb_false_r.
Qed.

Lemma command_line_overrides_config_witness :
  let s := mkStartup false false false (str "overwrite") [] false false false
                     [str "GAMES"] (str "DIR") (str "@echo off") 437 in
  (noautoexec s = true
   \/ (autoexec_section s <> str "join"
       /\ found_dir_or_command plain_host (commands s) = true))
  /\ buffer ConfigFileAutoexec
       (AutoExecModule stub_utf8_to_dos default_messages plain_host s
                       initial_state)
     = buffer ConfigFileAutoexec initial_state
  /\ autoexec_has_echo_off
       (AutoExecModule stub_utf8_to_dos default_messages plain_host s
                       initial_state)
     = autoexec_has_echo_off initial_state.
Proof.
  intros s.
  assert (C : noautoexec s = true
              \/ (autoexec_section s <> str "join"
                  /\ found_dir_or_command plain_host (commands s) = true)).
  { right. split; [discriminate|reflexivity]. }
  split; [exact C|].
  exact (command_line_overrides_config stub_utf8_to_dos default_messages
           plain_host s initial_state C).
Defined.

(** X21: without [-noautoexec], when [autoexec_section] is "join" the
    joined sections are used, and otherwise, if no directory or command
    was found, the overwritten section: the lines of the [autoexec]
    section and the echo-off flag after the constructor are those that
    ProcessConfigFile gives on that text. *)
Theorem config_section_used (utf8_to_dos : text -> N -> text)
        (MSG_Get : text -> text) (h : Host) (s : Startup) (st : State) :
  noautoexec s = false ->
  autoexec_section s = str "join"
  \/ found_dir_or_command h (commands s) = false ->
  let section_data :=
    if text_eq_dec (autoexec_section s) (str "join")
    then configuration_data s else overwritten_autoexec_data s in
  let st' := AutoExecModule utf8_to_dos MSG_Get h s st in
  buffer ConfigFileAutoexec st'
  = buffer ConfigFileAutoexec (ProcessConfigFile section_data st)
  /\ autoexec_has_echo_off st'
     = autoexec_has_echo_off (ProcessConfigFile section_data st).
Proof.
  intros A C section_data st'. subst st'. unfold AutoExecModule, buffer.
  rewrite (proj1 (register_keeps_composer _ _ _ _)),
    (proj2 (register_keeps_composer _ _ _ _)).
  destruct (compose_autoexec_buffers h s st) as (U & _ & E & _).
  unfold buffer in U. rewrite U, E.
  assert (S : used_section h s = Some section_data).
  { unfold used_section, section_data. rewrite A.
    destruct (text_eq_dec (autoexec_section s) (str "join")) as [J|J];
      [reflexivity|].
    destruct C as [C|C]; [contradiction|]. now rewrite C. }
  unfold user_lines, startup_echo_off. rewrite S.
  destruct (config_file_appends section_data st) as (added & B & _).
  destruct (config_file_frame section_data st) as (_ & _ & _ & _ & _ & F).
  rewrite F. fold (config_echo_off section_data). split; [|reflexivity].
  rewrite ProcessConfigFile_inserts.
  destruct (insertions_frame (map User (config_lines section_data))
              (if config_echo_off section_data
               then with_echo_off true st else st)) as (_ & _ & _ & B').
  fold (buffer ConfigFileAutoexec
          (fold_left insert (map User (config_lines section_data))
             (if config_echo_off section_data
              then with_echo_off true st else st))).
  rewrite B', inserted_same by reflexivity.
  fold (buffer ConfigFileAutoexec st). f_equal.
  now destruct (config_echo_off section_data).
Qed.

Lemma config_section_used_witness :
  let s := mkStartup false false false (str "join") [] false false false
                     [str "GAMES"] (str ("@Echo  OFF" ++ nl ++ "DIR"))
                     [] 437 in
  noautoexec s = false
  /\ (autoexec_section s = str "join"
      \/ found_dir_or_command plain_host (commands s) = false)
  /\ buffer ConfigFileAutoexec
       (AutoExecModule stub_utf8_to_dos default_messages plain_host s
                       initial_state)
     = [str "DIR"]
  /\ autoexec_has_echo_off
       (AutoExecModule stub_utf8_to_dos default_messages plain_host s
                       initial_state)
     = true.
Proof.
  intros s.
  assert (C : autoexec_section s = str "join"
              \/ found_dir_or_command plain_host (commands s) = false)
    by (left; reflexivity).
  split; [reflexivity|]. split; [exact C|].
  exact (config_section_used stub_utf8_to_dos default_messages plain_host s
           initial_state eq_refl C).
Defined.

(** X22: of the [-c] options, an exit call (exit, or exit in double
    quotes) is never inserted where it stands; the others are inserted
    before the [autoexec] section in their order, and nothing else is
    touched; the loop reports whether it met an exit call. *)
Theorem c_options_defer_exit (h : Host) (arguments : list text) (st : State) :
  let result := add_c_arguments h arguments false st in
  let kept := filter (fun a => negb (is_exit_call a))
                     (map (replace_quotes h) arguments) in
  buffer GeneratedBeforeAutoexec (fst result)
  = buffer GeneratedBeforeAutoexec st ++ kept
  /\ ~ In (str "exit") kept
  /\ ~ In ((quote ++ str "exit") ++ quote) kept
  /\ buffer ConfigFileAutoexec (fst result) = buffer ConfigFileAutoexec st
  /\ buffer GeneratedAfterAutoexec (fst result)
     = buffer GeneratedAfterAutoexec st
  /\ snd result
     = existsb is_exit_call (map (replace_quotes h) arguments).
Proof.
  intros result kept. subst result. rewrite add_c_arguments_inserts.
  fold kept. cbn [fst snd orb].
  destruct (insertions_frame (map Before kept) st) as (_ & _ & _ & B).
  rewrite !B.
  rewrite (inserted_same GeneratedBeforeAutoexec _ Before),
    (inserted_other ConfigFileAutoexec _ Before),
    (inserted_other GeneratedAfterAutoexec _ Before) by reflexivity.
  rewrite !app_nil_r.
  split; [reflexivity|].
  split; [|split; [|repeat split]].
  - subst kept. rewrite filter_In. intros [_ X]. discriminate X.
  - subst kept. rewrite filter_In. intros [_ X].
    unfold is_exit_call in X.
    destruct (text_eq_dec ((quote ++ str "exit") ++ quote)
                          ((quote ++ str "exit") ++ quote));
      [|contradiction].
    rewrite orb_true_r in X. discriminate X.
Qed.

Lemma cd_images_only (h : Host) (secure : bool) (images : list text)
      (st : State) :
  Forall (fun a => is_cd_image h a = true) images ->
  find_dir_or_command h secure images [] st = (st, false, join_images images)
  /\ found_dir_or_command h images = false.
Proof.
  intros F. split.
  - pose proof (cd_images_skipped h secure images [] [] st F) as E.
    rewrite app_nil_r in E. exact E.
  - rewrite <- (app_nil_r images). now rewrite found_after_images.
Qed.

Lemma join_images_empty (images : list text) :
  empty (join_images images) = empty images.
Proof. destruct images as [|i [|j images]]; reflexivity. Qed.

(** X23: CD images given without a directory or command are still
    mounted: compared with a start without positional arguments, the
    constructor adds one line before the [autoexec] section, last there,
    which mounts all the images, quoted and separated by spaces, as drive
    D; the section's lines and the lines after it are the same. *)
Theorem cd_images_alone (utf8_to_dos : text -> N -> text)
        (MSG_Get : text -> text) (h : Host) (s : Startup) (st : State) :
  Forall (fun a => is_cd_image h a = true) (commands s) ->
  commands s <> [] ->
  let st' := AutoExecModule utf8_to_dos MSG_Get h s st in
  let st0 := AutoExecModule utf8_to_dos MSG_Get h (with_commands [] s) st in
  buffer GeneratedBeforeAutoexec st'
  = buffer GeneratedBeforeAutoexec st0
      ++ [(str "@Z:\IMGMOUNT.COM D " ++ join_images (commands s))
            ++ str " -t iso"]
  /\ buffer ConfigFileAutoexec st' = buffer ConfigFileAutoexec st0
  /\ buffer GeneratedAfterAutoexec st' = buffer GeneratedAfterAutoexec st0.
Proof.
  intros F N st' st0. subst st' st0. unfold AutoExecModule, buffer.
  rewrite !(proj1 (register_keeps_composer _ _ _ _)).
  fold (buffer GeneratedBeforeAutoexec (compose_autoexec h s st))
       (buffer ConfigFileAutoexec (compose_autoexec h s st))
       (buffer GeneratedAfterAutoexec (compose_autoexec h s st))
       (buffer GeneratedBeforeAutoexec
               (compose_autoexec h (with_commands [] s) st))
       (buffer ConfigFileAutoexec
               (compose_autoexec h (with_commands [] s) st))
       (buffer GeneratedAfterAutoexec
               (compose_autoexec h (with_commands [] s) st)).
  unfold compose_autoexec.
  cbn [with_commands automount securemode noautoexec autoexec_section
       c_arguments exit_switch instant_launch has_executable_name commands
       configuration_data overwritten_autoexec_data utf8_code_page].
  rewrite add_c_arguments_inserts.
  set (st2 := fold_left insert _ _).
  rewrite (proj1 (cd_images_only h (securemode s) (commands s) st2 F)).
  cbn [find_dir_or_command negb].
  set (st4 := if negb (noautoexec s) then _ else st2).
  unfold maybe_add_command_mount_d_cdrom.
  rewrite join_images_empty.
  destruct (commands s) as [|c cs] eqn:C; [contradiction|].
  cbn [empty]. rewrite <- C.
  set (line := (str "@Z:\IMGMOUNT.COM D " ++ join_images (commands s))
                 ++ str " -t iso").
  set (tail := (if securemode s
                then [After (str "@Z:\CONFIG.COM -securemode")] else [])
                 ++ (if false || exit_call_exists h (c_arguments s)
                        || exit_switch s
                        || instant_launch s && has_executable_name s
                     then [After (str "@EXIT")] else [])).
  assert (L : (if false || exit_call_exists h (c_arguments s)
                  || exit_switch s
                  || instant_launch s && has_executable_name s
               then AddCommandAfter (str "@EXIT")
                      (maybe_add_command_secure
                         (securemode s) true (AddCommandBefore line st4))
               else maybe_add_command_secure
                      (securemode s) true (AddCommandBefore line st4))
              = fold_left insert (Before line :: tail) st4).
  { subst tail. unfold maybe_add_command_secure.
    destruct (securemode s), (false || exit_call_exists h (c_arguments s)
                                || exit_switch s
                                || instant_launch s && has_executable_name s);
      reflexivity. }
  assert (R : (if false || exit_call_exists h (c_arguments s)
                  || exit_switch s
                  || instant_launch s && has_executable_name s
               then AddCommandAfter (str "@EXIT")
                      (maybe_add_command_secure (securemode s) true st4)
               else maybe_add_command_secure (securemode s) true st4)
              = fold_left insert tail st4).
  { subst tail. unfold maybe_add_command_secure.
    destruct (securemode s), (false || exit_call_exists h (c_arguments s)
                                || exit_switch s
                                || instant_launch s && has_executable_name s);
      reflexivity. }
  rewrite L, R.
  destruct (insertions_frame (Before line :: tail) st4) as (_ & _ & _ & B1).
  destruct (insertions_frame tail st4) as (_ & _ & _ & B2).
  rewrite !B1, !B2.
  change (Before line :: tail) with ([Before line] ++ tail).
  rewrite !inserted_app.
  assert (T : inserted GeneratedBeforeAutoexec tail = []).
  { subst tail.
    destruct (securemode s), (false || exit_call_exists h (c_arguments s)
                                || exit_switch s
                                || instant_launch s && has_executable_name s);
      reflexivity. }
  rewrite T. cbn [inserted map filter location_of Location_eqb
                  Location_value Nat.eqb line_of app].
  rewrite !app_nil_r. repeat split.
Qed.

Lemma cd_images_alone_witness :
  let s := mkStartup false true false (str "join") [] true false false
                     [str "a.iso"; str "b.CUE"] (str "DIR") [] 437 in
  Forall (fun a => is_cd_image plain_host a = true) (commands s)
  /\ commands s <> []
  /\ buffer GeneratedBeforeAutoexec
       (AutoExecModule stub_utf8_to_dos default_messages plain_host s
                       initial_state)
     = [str "@Z:\IMGMOUNT.COM D " ++ quote ++ str "a.iso" ++ quote
          ++ str " " ++ quote ++ str "b.CUE" ++ quote ++ str " -t iso"]
  /\ buffer ConfigFileAutoexec
       (AutoExecModule stub_utf8_to_dos default_messages plain_host s
                       initial_state)
     = [str "DIR"]
  /\ buffer GeneratedAfterAutoexec
       (AutoExecModule stub_utf8_to_dos default_messages plain_host s
                       initial_state)
     = [str "@Z:\CONFIG.COM -securemode"; str "@EXIT"].
Proof.
  intros s.
  assert (F : Forall (fun a => is_cd_image plain_host a = true) (commands s))
    by (repeat constructor).
  assert (N : commands s <> []) by discriminate.
  split; [exact F|]. split; [exact N|].
  exact (cd_images_alone stub_utf8_to_dos default_messages plain_host s
           initial_state F N).
Defined.

(** X24: AutoMountDrive adds nothing when the drive's directory does not
    exist; otherwise it appends, before the [autoexec] section, the mount
    line of the drive and then, only if the drive's configuration gives a
    PATH value, the [@SET PATH=] line; the other buffers stay as they
    are. *)
Theorem auto_mount_drive_lines (h : Host) (dir_letter : text) (st : State) :
  let drive_path := GetResourcePath h (str "drives") dir_letter in
  let conf := parse_drive_conf h dir_letter (drive_path ++ str ".conf") in
  let st' := AutoMountDrive h dir_letter st in
  buffer GeneratedBeforeAutoexec st'
  = buffer GeneratedBeforeAutoexec st
      ++ (if path_exists h drive_path
          then [str "@Z:\MOUNT.COM " ++ fst (fst conf) ++ str " " ++ quote
                  ++ simplify_path h drive_path ++ quote ++ snd (fst conf)]
                 ++ (if empty (snd conf) then []
                     else [str "@SET PATH=" ++ snd conf])
          else [])
  /\ buffer ConfigFileAutoexec st' = buffer ConfigFileAutoexec st
  /\ buffer GeneratedAfterAutoexec st' = buffer GeneratedAfterAutoexec st.
Proof.
  intros drive_path conf st'. subst st'. unfold AutoMountDrive.
  fold drive_path. fold conf.
  destruct (path_exists h drive_path); cbn [negb].
  - destruct conf as [[drive_letter mount_args] path_val]. cbn [fst snd].
    destruct path_val as [|c path_val]; cbn [length Nat.eqb negb empty].
    + destruct (insertions_frame
                  [Before (((((str "@Z:\MOUNT.COM " ++ drive_letter)
                                ++ str " " ++ quote)
                               ++ simplify_path h drive_path) ++ quote)
                             ++ mount_args)] st) as (_ & _ & _ & B).
      cbn [fold_left insert] in B. rewrite !B.
      cbn [inserted map filter location_of Location_eqb Location_value
           Nat.eqb line_of app].
      rewrite !app_nil_r, <- !app_assoc. repeat split.
    + destruct (insertions_frame
                  [Before (((((str "@Z:\MOUNT.COM " ++ drive_letter)
                                ++ str " " ++ quote)
                               ++ simplify_path h drive_path) ++ quote)
                             ++ mount_args);
                   Before (str "@SET PATH=" ++ c :: path_val)] st)
        as (_ & _ & _ & B).
      cbn [fold_left insert] in B. rewrite !B.
      cbn [inserted map filter location_of Location_eqb Location_value
           Nat.eqb line_of app].
      rewrite !app_nil_r, <- !app_assoc. repeat split.
  - rewrite !app_nil_r. repeat split.
Qed.

Lemma compose_after_automount (h : Host) (s : Startup) (st : State) :
  automount s = true ->
  compose_autoexec h s st
  = compose_autoexec h (with_automount false s) (automount_drives h st).
Proof.
  intros A. unfold compose_autoexec.
  cbn [with_automount automount securemode noautoexec autoexec_section
       c_arguments exit_switch instant_launch has_executable_name commands
       configuration_data overwritten_autoexec_data utf8_code_page].
  rewrite A. reflexivity.
Qed.

(** X25: with [automount] on, the drives are mounted first: the lines
    before the [autoexec] section start with those the auto-mount loop adds
    for the letters a to z, whatever the command line adds comes after
    them, and the loop itself adds no line elsewhere. *)
Theorem drives_mounted_first (utf8_to_dos : text -> N -> text)
        (MSG_Get : text -> text) (h : Host) (s : Startup) (st : State) :
  automount s = true ->
  exists mounts rest,
    buffer GeneratedBeforeAutoexec (automount_drives h st)
    = buffer GeneratedBeforeAutoexec st ++ mounts
    /\ buffer ConfigFileAutoexec (automount_drives h st)
       = buffer ConfigFileAutoexec st
    /\ buffer GeneratedAfterAutoexec (automount_drives h st)
       = buffer GeneratedAfterAutoexec st
    /\ buffer GeneratedBeforeAutoexec
         (AutoExecModule utf8_to_dos MSG_Get h s st)
       = (buffer GeneratedBeforeAutoexec st ++ mounts) ++ rest.
Proof.
  intros A.
  destruct (automount_inserts h drive_letters st) as (mounts & M).
  fold (automount_drives h st) in M.
  destruct (compose_autoexec_inserts h (with_automount false s)
              (automount_drives h st)) as (b1 & b2 & C).
  exists mounts, (b1 ++ b2).
  destruct (insertions_frame (map Before mounts) st) as (_ & _ & _ & B).
  rewrite <- M in B.
  rewrite !B.
  rewrite (inserted_same GeneratedBeforeAutoexec _ Before),
    (inserted_other ConfigFileAutoexec _ Before),
    (inserted_other GeneratedAfterAutoexec _ Before) by reflexivity.
  rewrite !app_nil_r.
  split; [reflexivity|]. split; [reflexivity|]. split; [reflexivity|].
  unfold AutoExecModule, buffer.
  rewrite (proj1 (register_keeps_composer _ _ _ _)).
  rewrite (compose_after_automount h s st A), C.
  set (st0 := if startup_echo_off h (with_automount false s)
              then with_echo_off true (automount_drives h st)
              else automount_drives h st).
  destruct (insertions_frame
              (map Before b1 ++ map User (user_lines h (with_automount false s))
                 ++ map Before b2
                 ++ map After (after_lines h (with_automount false s))) st0)
    as (_ & _ & _ & B').
  fold (buffer GeneratedBeforeAutoexec
          (fold_left insert
             (map Before b1
                ++ map User (user_lines h (with_automount false s))
                ++ map Before b2
                ++ map After (after_lines h (with_automount false s))) st0)).
  rewrite B', !inserted_app.
  rewrite !(inserted_same GeneratedBeforeAutoexec _ Before),
    (inserted_other GeneratedBeforeAutoexec _ User),
    (inserted_other GeneratedBeforeAutoexec _ After) by reflexivity.
  cbn [app]. rewrite app_nil_r.
  assert (S0 : buffer GeneratedBeforeAutoexec st0
               = buffer GeneratedBeforeAutoexec (automount_drives h st)).
  { subst st0. now destruct (startup_echo_off h (with_automount false s)). }
  rewrite S0, (B GeneratedBeforeAutoexec).
  now rewrite (inserted_same GeneratedBeforeAutoexec _ Before) by reflexivity.
Qed.

Lemma drives_mounted_first_witness :
  let s := mkStartup true false false (str "join") [str "ver"] false false
                     false [str "GAMES"] [] [] 437 in
  automount s = true
  /\ exists mounts rest,
      buffer GeneratedBeforeAutoexec (automount_drives drives_host initial_state)
      = buffer GeneratedBeforeAutoexec initial_state ++ mounts
      /\ buffer ConfigFileAutoexec (automount_drives drives_host initial_state)
         = buffer ConfigFileAutoexec initial_state
      /\ buffer GeneratedAfterAutoexec
           (automount_drives drives_host initial_state)
         = buffer GeneratedAfterAutoexec initial_state
      /\ buffer GeneratedBeforeAutoexec
           (AutoExecModule stub_utf8_to_dos default_messages drives_host s
                           initial_state)
         = (buffer GeneratedBeforeAutoexec initial_state ++ mounts) ++ rest.
Proof.
  intros s. split; [reflexivity|].
  exact (drives_mounted_first stub_utf8_to_dos default_messages drives_host s
           initial_state eq_refl).
Defined.
